(** * react-sheeet: the search filter and the card state of [src/App.jsx]

    The development follows [App.jsx]: the catalog [SECTIONS], the memoised
    filter [shown] of [App], the [open] flag of [Card] and the [ok] flag of
    [CopyBtn].  Strings are byte strings holding the UTF-8 encoding of the
    JavaScript text; on well-formed text a substring test gives the same
    answer on either encoding.  [String.prototype.toLowerCase] is a host
    built-in and is a parameter of the model. *)

From Stdlib Require Import Ascii String ZArith Lia.
From stdpp Require Import gmap strings list fin_maps.

Local Open Scope Z_scope.
Local Open Scope nat_scope.
Local Open Scope stdpp_scope.

(** ** Strings *)

(** The double quote character, for the snippets that contain it. *)
Definition dq : string := String (ascii_of_nat 34) EmptyString.

(** [startsWith s t]: [t] is a prefix of [s]. *)
Fixpoint startsWith (s t : string) {struct t} : bool :=
  match t with
  | EmptyString => true
  | String b t' =>
      match s with
      | EmptyString => false
      | String a s' => if Ascii.eqb a b then startsWith s' t' else false
      end
  end.

(** [String.prototype.includes]: [includes s t] is [s.includes(t)], the
    search of [t] at every position of [s], the end included. *)
Fixpoint includes (s t : string) : bool :=
  startsWith s t ||
  match s with
  | EmptyString => false
  | String _ s' => includes s' t
  end.

(** What the specification calls "is a substring of". *)
Definition Substring (t s : string) : Prop :=
  exists pre post : string, s = pre +:+ t +:+ post.

(** ** The catalog *)

(** One object literal of [SECTIONS]. *)
Record Topic : Type := {
  id : string;
  color : string;
  label : string;
  desc : string;
  note : string;
  code : string
}.

#[global] Instance Topic_eq_dec : EqDecision Topic.
Proof. solve_decision. Defined.

Definition SECTIONS : list Topic := [
  {| id := "fn-comp"; color := "#F97316"; label := "Functional Components";
     desc := "Plain JS functions that return JSX. The modern way to write React.";
     note := "Hooks only work inside functional components. Prefer function declarations for top-level components — they show up better in stack traces.";
     code := "// Basic
function Greeting({ name }) {
  return <h1>Hello, {name}!</h1>;
}

// Arrow + default prop
const Btn = ({ label, onClick, disabled = false }) => (
  <button onClick={onClick} disabled={disabled}>{label}</button>
);

// Fragment — no extra DOM wrapper
function List() {
  return (
    <>
      <li>Apple</li>
      <li>Mango</li>
    </>
  );
}" |};

  {| id := "comp-patterns"; color := "#C084FC"; label := "Component Patterns";
     desc := "Composition, compound components, render props, HOCs, and custom hooks.";
     note := "Prefer composition and custom hooks over HOCs/render-props in modern React — simpler and hook-friendly.";
     code := "// 1. Composition
function Card({ children, footer }) {
  return (
    <div>
      <div>{children}</div>
      {footer && <div>{footer}</div>}
    </div>
  );
}

// 2. Render prop
function Mouse({ render }) {
  const [pos, setPos] = useState({ x:0, y:0 });
  return (
    <div onMouseMove={e => setPos({ x:e.clientX, y:e.clientY })}>
      {render(pos)}
    </div>
  );
}

// 3. HOC
function withLogger(Wrapped) {
  return function(props) {
    useEffect(() => console.log('mounted', props), []);
    return <Wrapped {...props} />;
  };
}

// 4. Custom hook (modern alternative)
function useMouse() {
  const [pos, setPos] = useState({ x:0, y:0 });
  useEffect(() => {
    const fn = e => setPos({ x:e.clientX, y:e.clientY });
    window.addEventListener('mousemove', fn);
    return () => window.removeEventListener('mousemove', fn);
  }, []);
  return pos;
}" |};

  {| id := "useState"; color := "#FF6B6B"; label := "useState";
     desc := "Manages local component state. Returns [value, setter].";
     note := "Use the functional form (prev =>) whenever new state depends on old. Never mutate state directly.";
     code := "const [count, setCount] = useState(0);
const [user, setUser]   = useState({ name: 'Ada' });

// Update primitive
setCount(prev => prev + 1);

// Update object — spread to keep other keys
setUser(prev => ({ ...prev, name: 'Grace' }));

// Lazy initialiser (runs once)
const [data, setData] = useState(() => JSON.parse(localStorage.getItem('data') ?? 'null'));" |};

  {| id := "useEffect"; color := "#38BDF8"; label := "useEffect";
     desc := "Side effects after render — fetching, subscriptions, DOM changes.";
     note := "Every value from component scope used inside must be in the deps array. Return a cleanup function to avoid memory leaks.";
     code := "// Once on mount
useEffect(() => { fetchUser(id).then(setUser); }, []);

// When deps change
useEffect(() => { fetchUser(id).then(setUser); }, [id]);

// Cleanup
useEffect(() => {
  const sub = socket.subscribe(room, onMsg);
  return () => sub.unsubscribe();
}, [room]);

// Safe async pattern
useEffect(() => {
  let cancelled = false;
  async function load() {
    const data = await fetchData(id);
    if (!cancelled) setData(data);
  }
  load();
  return () => { cancelled = true; };
}, [id]);" |};

  {| id := "useRef"; color := "#67E8F9"; label := "useRef";
     desc := "Mutable value that persists across renders without triggering re-renders. Also for DOM access.";
     note := "Writing to ref.current never causes a re-render. Use refs for timer IDs, DOM nodes, previous values, and third-party imperative APIs.";
     code := "// DOM access
function AutoFocus() {
  const ref = useRef(null);
  useEffect(() => { ref.current.focus(); }, []);
  return <input ref={ref} />;
}

// Store mutable value (timer ID)
const timerRef = useRef(null);
const start = () => {
  timerRef.current = setInterval(() => tick(), 1000);
};
const stop = () => clearInterval(timerRef.current);

// Previous value pattern
function usePrevious(value) {
  const ref = useRef();
  useEffect(() => { ref.current = value; }, [value]);
  return ref.current;
}
const prevCount = usePrevious(count);" |};

  {| id := "useContext"; color := "#4ECDC4"; label := "useContext";
     desc := "Consume React context — avoids prop drilling through many layers.";
     note := "Every consumer re-renders when context value changes. Memoize the value object to prevent unnecessary re-renders.";
     code := "// 1. Create
const ThemeCtx = createContext('light');

// 2. Provide
// <ThemeCtx.Provider value=" +:+ dq +:+ "dark" +:+ dq +:+ ">
//   <App />
// </ThemeCtx.Provider>

// 3. Consume anywhere in tree
const theme = useContext(ThemeCtx);

// Memoize value to avoid extra re-renders
const ctx = useMemo(() => ({ user, logout }), [user]);" |};

  {| id := "useReducer"; color := "#A78BFA"; label := "useReducer";
     desc := "useState for complex state. Centralises updates in a reducer function.";
     note := "Prefer useReducer when multiple sub-values update together or when next state depends on previous in complex ways.";
     code := "const reducer = (state, action) => {
  switch (action.type) {
    case 'INC':   return { count: state.count + 1 };
    case 'RESET': return { count: 0 };
    default:      return state;
  }
};

const [state, dispatch] = useReducer(reducer, { count: 0 });

dispatch({ type: 'INC' });
dispatch({ type: 'RESET' });" |};

  {| id := "useCallback"; color := "#F59E0B"; label := "useCallback";
     desc := "Memoizes a function — stable reference unless deps change.";
     note := "Only useful when passing to React.memo children or as useEffect deps. Otherwise it just adds overhead.";
     code := "const handleClick = useCallback(() => {
  doSomething(id);
}, [id]);

// Pass to memoized child without breaking memo
// <MemoChild onClick={handleClick} />

// Equivalent to:
const fn = useMemo(() => () => doSomething(id), [id]);" |};

  {| id := "useMemo"; color := "#34D399"; label := "useMemo";
     desc := "Memoizes an expensive computed value — recalculates only when deps change.";
     note := "Don't over-use — it adds memory overhead. Profile first, then apply where you measure a real problem.";
     code := "const sorted = useMemo(() =>
  [...items].sort((a, b) => a.name.localeCompare(b.name)),
  [items]
);

// Stable ref for context value
const ctx = useMemo(() => ({ user, logout }), [user]);

// Derived value
const total = useMemo(
  () => cart.reduce((sum, i) => sum + i.price, 0),
  [cart]
);" |};

  {| id := "custom-hooks"; color := "#A3E635"; label := "Custom Hooks";
     desc := "Extract reusable stateful logic into 'use' prefixed functions.";
     note := "Must start with 'use' so React's linter enforces the rules of hooks. One clear purpose per hook.";
     code := "// useFetch
function useFetch(url) {
  const [data, setData]       = useState(null);
  const [loading, setLoading] = useState(true);
  const [error, setError]     = useState(null);
  useEffect(() => {
    let cancelled = false;
    fetch(url).then(r => r.json())
      .then(d => { if (!cancelled) { setData(d); setLoading(false); } })
      .catch(e => { if (!cancelled) { setError(e); setLoading(false); } });
    return () => { cancelled = true; };
  }, [url]);
  return { data, loading, error };
}

// useLocalStorage
function useLocalStorage(key, init) {
  const [val, setVal] = useState(() => {
    try { return JSON.parse(localStorage.getItem(key)) ?? init; }
    catch { return init; }
  });
  const set = v => { setVal(v); localStorage.setItem(key, JSON.stringify(v)); };
  return [val, set];
}

// useDebounce
function useDebounce(value, delay = 300) {
  const [debounced, setDebounced] = useState(value);
  useEffect(() => {
    const t = setTimeout(() => setDebounced(value), delay);
    return () => clearTimeout(t);
  }, [value, delay]);
  return debounced;
}" |};

  {| id := "props-state"; color := "#F472B6"; label := "Props & State";
     desc := "Props flow down (read-only). State lives locally and triggers re-renders.";
     note := "Lift state to the nearest common ancestor when siblings share it. Derive values instead of storing them in state.";
     code := "// Props
function Card({ title, count, onClick }) {
  return <div onClick={onClick}>{title}: {count}</div>;
}

// Default prop
function Badge({ label = 'New' }) { ... }

// Children
function Modal({ children }) {
  return <div className=" +:+ dq +:+ "modal" +:+ dq +:+ ">{children}</div>;
}

// Local state
const [open, setOpen] = useState(false);

// Derived — compute, don't store
const [items, setItems] = useState([]);
const count = items.length; // NOT a separate useState" |};

  {| id := "loops"; color := "#60A5FA"; label := "Loops & Lists";
     desc := "Render lists with .map() — always provide a stable, unique key.";
     note := "Never use array index as a key for lists that can be reordered or filtered. Keys must only be unique among siblings.";
     code := "// .map()
// <ul>
//   {items.map(item => (
//     <li key={item.id}>{item.name}</li>
//   ))}
// </ul>

// .filter() then .map()
const active = users
  .filter(u => u.active)
  .map(u => <UserCard key={u.id} user={u} />);

// Conditional rendering
// {isLoggedIn ? <Dashboard /> : <Login />}
// {error && <ErrorBanner message={error} />}
// {loading && <Spinner />}" |};

  {| id := "events"; color := "#FCD34D"; label := "Event Handling";
     desc := "React wraps native events in SyntheticEvent for cross-browser consistency.";
     note := "Always call e.preventDefault() in form onSubmit. Use e.stopPropagation() to prevent bubbling to parent handlers.";
     code := "// Common events: onClick onChange onSubmit onKeyDown onBlur

const handleClick = e => {
  e.preventDefault();    // stop default browser action
  e.stopPropagation();   // stop event bubbling
  console.log(e.target, e.currentTarget);
};

// Keyboard
const handleKey = e => {
  if (e.key === 'Enter')  submit();
  if (e.key === 'Escape') close();
};

// Generic change handler (uses input name attribute)
const handleChange = e => {
  const { name, value, type, checked } = e.target;
  setForm(p => ({
    ...p,
    [name]: type === 'checkbox' ? checked : value,
  }));
};

// Event delegation — one handler for many children
const handleList = e => {
  const id = e.target.closest('li')?.dataset.id;
  if (id) handleSelect(id);
};" |};

  {| id := "controlled"; color := "#FB7185"; label := "Controlled vs Uncontrolled";
     desc := "Controlled: React owns the value. Uncontrolled: DOM owns it, read via ref.";
     note := "Prefer controlled inputs — predictable and easy to validate. File inputs are always uncontrolled. useRef for 3rd-party libs.";
     code := "// CONTROLLED — value + onChange
function Controlled() {
  const [val, setVal] = useState('');
  return (
    <input value={val} onChange={e => setVal(e.target.value)} />
  );
}

// UNCONTROLLED — defaultValue + ref
function Uncontrolled() {
  const ref = useRef(null);
  const submit = () => console.log(ref.current.value);
  return (
    <>
      <input ref={ref} defaultValue=" +:+ dq +:+ "initial" +:+ dq +:+ " />
      <button onClick={submit}>Read</button>
    </>
  );
}

// File input — always uncontrolled
// <input type=" +:+ dq +:+ "file" +:+ dq +:+ " ref={fileRef} />

// Controlled select / checkbox
// <select value={val} onChange={e => setVal(e.target.value)}>
// <input type=" +:+ dq +:+ "checkbox" +:+ dq +:+ " checked={on} onChange={e => setOn(e.target.checked)} />" |};

  {| id := "forms"; color := "#E879F9"; label := "Forms with Validation";
     desc := "Full form pattern — multiple fields, submit validation, per-field errors.";
     note := "The [name]: value pattern lets one handler drive all fields. For complex forms use React Hook Form — it avoids re-renders on every keystroke.";
     code := "function SignupForm() {
  const [form, setForm]     = useState({ name:'', email:'', password:'' });
  const [errors, setErrors] = useState({});

  const handleChange = e => {
    const { name, value } = e.target;
    setForm(p => ({ ...p, [name]: value }));
    if (errors[name]) setErrors(p => ({ ...p, [name]: '' }));
  };

  const validate = () => {
    const e = {};
    if (!form.name.trim())           e.name = 'Required';
    if (!/\S+@\S+/.test(form.email)) e.email = 'Invalid email';
    if (form.password.length < 8)    e.password = 'Min 8 chars';
    return e;
  };

  const handleSubmit = e => {
    e.preventDefault();
    const errs = validate();
    if (Object.keys(errs).length) { setErrors(errs); return; }
    // await api.signup(form)
  };

  return (
    <form onSubmit={handleSubmit} noValidate>
      <input name=" +:+ dq +:+ "name" +:+ dq +:+ "     value={form.name}     onChange={handleChange} />
      {errors.name && <span>{errors.name}</span>}
      <input name=" +:+ dq +:+ "email" +:+ dq +:+ "    value={form.email}    onChange={handleChange} />
      {errors.email && <span>{errors.email}</span>}
      <input name=" +:+ dq +:+ "password" +:+ dq +:+ " value={form.password} onChange={handleChange} type=" +:+ dq +:+ "password" +:+ dq +:+ " />
      {errors.password && <span>{errors.password}</span>}
      <button type=" +:+ dq +:+ "submit" +:+ dq +:+ ">Sign Up</button>
    </form>
  );
}" |};

  {| id := "lazy"; color := "#E879F9"; label := "React.lazy & Suspense";
     desc := "Code-split components — load only when needed to shrink the initial bundle.";
     note := "React.lazy only works with default exports. Wrap Suspense in an error boundary to handle chunk load failures.";
     code := "// Lazy load (must be default export)
const Dashboard = React.lazy(() => import('./Dashboard'));
const Chart     = React.lazy(() => import('./Chart'));

// Wrap with Suspense
// <Suspense fallback={<Spinner />}>
//   <Dashboard />
// </Suspense>

// Route-level splitting
const Home    = React.lazy(() => import('./pages/Home'));
const Profile = React.lazy(() => import('./pages/Profile'));
// <Suspense fallback={<PageSkeleton />}>
//   <Routes>
//     <Route path=" +:+ dq +:+ "/" +:+ dq +:+ "        element={<Home />} />
//     <Route path=" +:+ dq +:+ "/profile" +:+ dq +:+ " element={<Profile />} />
//   </Routes>
// </Suspense>" |};

  {| id := "router"; color := "#2DD4BF"; label := "React Router v6";
     desc := "Client-side routing — the de-facto standard for React SPAs.";
     note := "v6: Routes not Switch, all routes exact by default. useNavigate replaces useHistory. Nested route paths are relative.";
     code := "// npm i react-router-dom
// <BrowserRouter><App /></BrowserRouter>

// Declare routes
// <Routes>
//   <Route path=" +:+ dq +:+ "/" +:+ dq +:+ "          element={<Home />} />
//   <Route path=" +:+ dq +:+ "/users/:id" +:+ dq +:+ " element={<UserDetail />} />
//   <Route path=" +:+ dq +:+ "*" +:+ dq +:+ "          element={<NotFound />} />
// </Routes>

// Links
// <Link to=" +:+ dq +:+ "/about" +:+ dq +:+ ">About</Link>
// <NavLink to=" +:+ dq +:+ "/about" +:+ dq +:+ " className={({isActive}) => isActive ? 'active' : ''}>

// Programmatic navigation
const navigate = useNavigate();
navigate('/dashboard');
navigate(-1); // back

// Params & query string
const { id }          = useParams();         // /users/:id
const [params]        = useSearchParams();   // ?tab=info
const tab             = params.get('tab');

// Nested routes with Outlet
// <Route path=" +:+ dq +:+ "/settings" +:+ dq +:+ " element={<Settings />}>
//   <Route path=" +:+ dq +:+ "profile" +:+ dq +:+ " element={<Profile />} />  // <Outlet /> in Settings" |};

  {| id := "perf"; color := "#34D399"; label := "Re-renders & Performance";
     desc := "When React re-renders and how to prevent unnecessary ones.";
     note := "Don't optimise prematurely. Profile first with React DevTools Profiler, then apply memo/useCallback/useMemo where measured.";
     code := "// Re-renders when:
// 1. Own state changes
// 2. Parent re-renders (even with same props)
// 3. Consumed context changes

// React.memo — skip if props unchanged
const List = React.memo(({ items }) => (
  <ul>{items.map(i => <li key={i.id}>{i.name}</li>)}</ul>
));

// Stable refs prevent breaking memo
const items  = useMemo(() => data.map(format), [data]);
const onClick = useCallback(() => doThing(), []);
// <List items={items} onClick={onClick} />

// Derive, don't store
const count = items.length; // not useState(0)

// React 18 automatic batching
setTimeout(() => {
  setA(1); // ─┐ one
  setB(2); // ─┘ re-render" |};

  {| id := "error-boundaries"; color := "#F87171"; label := "Error Boundaries";
     desc := "Catch render errors in a subtree and show a fallback UI instead of crashing.";
     note := "Place one at app root plus smaller ones around independent widgets. react-error-boundary package adds hook-friendly reset/retry support.";
     code := "class ErrorBoundary extends React.Component {
  state = { hasError: false, error: null };

  static getDerivedStateFromError(error) {
    return { hasError: true, error };
  }

  componentDidCatch(error, info) {
    logToService(error, info.componentStack);
  }

  render() {
    if (this.state.hasError)
      return this.props.fallback ?? <h2>Something went wrong.</h2>;
    return this.props.children;
  }
}

// <ErrorBoundary fallback={<ErrorPage />}>
//   <Suspense fallback={<Spinner />}>
//     <LazyPage />
//   </Suspense>
// </ErrorBoundary>

// Does NOT catch:
// ✗ Event handlers  ✗ Async (setTimeout/fetch)
// ✗ SSR             ✗ Errors inside the boundary itself" |};

  {| id := "interview"; color := "#FB923C"; label := "Interview Essentials";
     desc := "Virtual DOM, reconciliation, rules of hooks, and key concepts.";
     note := "Other hot topics: lifting state, prop drilling solutions, synthetic events, mount/update/unmount phases, and React 18 concurrent features.";
     code := "// Virtual DOM — lightweight JS copy of the DOM.
// React diffs it and batches minimal real DOM updates.

// Reconciliation — the diffing algorithm.
// Keys help React track which list items changed.

// Rules of Hooks:
// 1. Only call at top level (not in loops/conditions)
// 2. Only call from React functions or custom hooks

// React.memo
const Pure = React.memo(({ name }) => <p>{name}</p>);

// Controlled vs Uncontrolled (see dedicated card)

// Error boundary (class only — no hook equivalent)
// getDerivedStateFromError + componentDidCatch

// Key interview questions:
// • What causes a re-render?
// • How does useEffect cleanup work?
// • useMemo vs useCallback?
// • What is prop drilling and how do you avoid it?
// • How does React reconciliation use keys?" |};

  {| id := "temp-converter"; color := "#FF8C42"; label := "Mini App: Temperature Converter";
     desc := "Two-way controlled inputs, derived state, and conversion formulas.";
     note := "Store both as strings to avoid the NaN edge case on empty input. Derive the label with useMemo — don't store it as state.";
     code := "function TempConverter() {
  const [c, setC] = useState('');
  const [f, setF] = useState('');

  const fromC = e => {
    const v = e.target.value;
    setC(v);
    setF(v === '' ? '' : ((v * 9/5) + 32).toFixed(1));
  };

  const fromF = e => {
    const v = e.target.value;
    setF(v);
    setC(v === '' ? '' : ((v - 32) * 5/9).toFixed(1));
  };

  const label = useMemo(() => {
    const n = parseFloat(c);
    if (isNaN(n)) return '';
    if (n < 0)    return 'Freezing 🥶';
    if (n < 20)   return 'Cool 🌤';
    if (n < 35)   return 'Warm ☀️';
    return 'Hot 🔥';
  }, [c]);

  return (
    <div>
      <input type=" +:+ dq +:+ "number" +:+ dq +:+ " value={c} onChange={fromC} placeholder=" +:+ dq +:+ "°C" +:+ dq +:+ " />
      <input type=" +:+ dq +:+ "number" +:+ dq +:+ " value={f} onChange={fromF} placeholder=" +:+ dq +:+ "°F" +:+ dq +:+ " />
      {label && <p>{label}</p>}
    </div>
  );
}
// Formulas: C→F: (C × 9/5) + 32   F→C: (F − 32) × 5/9" |};

  {| id := "traffic-light"; color := "#84CC16"; label := "Mini App: Traffic Light";
     desc := "Cycling state with modulo, useEffect timers, and cleanup.";
     note := "The cleanup clearTimeout is critical — without it a stale timer fires after the component updates, causing double-advances. Classic interview gotcha.";
     code := "const LIGHTS = [
  { color:'red',    ms:4000, hex:'#EF4444' },
  { color:'yellow', ms:1500, hex:'#EAB308' },
  { color:'green',  ms:3000, hex:'#22C55E' },
];

function TrafficLight() {
  const [idx, setIdx]         = useState(0);
  const [running, setRunning] = useState(true);

  useEffect(() => {
    if (!running) return;
    const t = setTimeout(() => {
      setIdx(i => (i + 1) % LIGHTS.length); // cycle with modulo
    }, LIGHTS[idx].ms);
    return () => clearTimeout(t); // cleanup!
  }, [idx, running]);

  return (
    <div>
      {LIGHTS.map((l, i) => (
        <div key={l.color} style={{
          width:60, height:60, borderRadius:'50%',
          background: i === idx ? l.hex : '#333',
          boxShadow: i === idx ? '0 0 20px ' + l.hex : 'none',
        }} />
      ))}
      <button onClick={() => setRunning(r => !r)}>
        {running ? 'Pause' : 'Resume'}
      </button>
    </div>
  );
}" |};

  {| id := "mini-apps"; color := "#818CF8"; label := "Mini Apps: Todo, Fetch & Debounce";
     desc := "CRUD array state, async loading/error/data pattern, and debounced search.";
     note := "For arrays: never push/splice — always use spread/map/filter. For fetch: always handle all 3 states (loading, data, error). Cancel stale requests.";
     code := "// ── TODO (CRUD) ──────────────────────────────────
function TodoList() {
  const [todos, setTodos] = useState([]);
  const [input, setInput] = useState('');
  const add    = () => { if (!input.trim()) return;
    setTodos(p => [...p, { id:Date.now(), text:input, done:false }]);
    setInput(''); };
  const toggle = id => setTodos(p =>
    p.map(t => t.id===id ? {...t, done:!t.done} : t));
  const remove = id => setTodos(p => p.filter(t => t.id!==id));
  return (
    <div>
      <input value={input} onChange={e=>setInput(e.target.value)}
             onKeyDown={e=>e.key==='Enter'&&add()} />
      <button onClick={add}>Add</button>
      {todos.map(t=>(
        <div key={t.id}>
          <span onClick={()=>toggle(t.id)}
            style={{textDecoration:t.done?'line-through':'none'}}>
            {t.text}
          </span>
          <button onClick={()=>remove(t.id)}>✕</button>
        </div>
      ))}
    </div>
  );
}

// ── FETCH (loading/data/error) ────────────────────
function UserCard({ id }) {
  const [user, setUser]       = useState(null);
  const [loading, setLoading] = useState(true);
  const [error, setError]     = useState(null);
  useEffect(() => {
    let gone = false;
    setLoading(true);
    fetch('https://jsonplaceholder.typicode.com/users/'+id)
      .then(r => r.json())
      .then(d => { if(!gone) { setUser(d); setLoading(false); } })
      .catch(e => { if(!gone) { setError(e.message); setLoading(false); } });
    return () => { gone = true; };
  }, [id]);
  if (loading) return <p>Loading…</p>;
  if (error)   return <p>Error: {error}</p>;
  return <div><b>{user.name}</b><p>{user.email}</p></div>;
}

// ── DEBOUNCED SEARCH ──────────────────────────────
function SearchBox() {
  const [query, setQuery] = useState('');
  const [results, setResults] = useState([]);

  useEffect(() => {
    if (!query.trim()) return;
    const t = setTimeout(async () => {
      const r = await fetch('/api/search?q='+query).then(r=>r.json());
      setResults(r);
    }, 400);
    return () => clearTimeout(t); // cancel on next keystroke
  }, [query]);

  return (
    <div>
      <input value={query} onChange={e=>setQuery(e.target.value)}
             placeholder=" +:+ dq +:+ "Search…" +:+ dq +:+ " />
      {results.map(r => <p key={r.id}>{r.title}</p>)}
    </div>
  );
}" |}
].

(** [Array.prototype.indexOf]: the first index holding [x], or [-1].  The
    entries of [SECTIONS] are pairwise different records (see
    [SECTIONS_NoDup]), so comparing records finds the same index as the
    comparison of object identities that JavaScript makes. *)
Fixpoint indexOf {A} `{EqDecision A} (l : list A) (x : A) : Z :=
  match l with
  | [] => (-1)%Z
  | y :: l' =>
      if decide (y = x) then 0%Z
      else let r := indexOf l' x in
           if (r <? 0)%Z then (-1)%Z else (r + 1)%Z
  end.

(** ** The filter of [App] *)

Section Filter.

(** [String.prototype.toLowerCase] of the host. *)
Variable toLowerCase : string -> string.

(** The predicate passed to [SECTIONS.filter], with [lq] already computed. *)
Definition matches (lq : string) (s : Topic) : bool :=
  includes (toLowerCase (label s)) lq ||
  includes (toLowerCase (desc s)) lq ||
  includes (toLowerCase (code s)) lq.

(** The body of the [useMemo] callback of [App]. *)
Definition shown (q : string) : list Topic :=
  let lq := toLowerCase q in
  List.filter (matches lq) SECTIONS.

End Filter.

Arguments shown : simpl never.

(** ** What [App] renders *)

(** The props of one [<Card key={s.id} s={s} n={SECTIONS.indexOf(s)+1} />]. *)
Record CardProps : Type := {
  card_key : string;
  card_s : Topic;
  card_n : Z
}.

(** The list area of [App]: the "No results" paragraph, or the cards. *)
Inductive ListArea : Type :=
| NoResults (q : string)
| Cards (cs : list CardProps).

Section Render.

Variable toLowerCase : string -> string.

Definition cardOf (s : Topic) : CardProps :=
  {| card_key := id s; card_s := s; card_n := (indexOf SECTIONS s + 1)%Z |}.

(** [shown.map(s => <Card .../>)]. *)
Definition cards (q : string) : list CardProps :=
  List.map cardOf (shown toLowerCase q).

(** [shown.length === 0 ? <p>No results ...</p> : shown.map(...)]. *)
Definition listArea (q : string) : ListArea :=
  if (List.length (shown toLowerCase q) =? 0)%nat then NoResults q
  else Cards (cards q).

End Render.

(** ** Component state *)

(** The state of a mounted [CopyBtn]: [inst] names the component instance
    that the closure [() => setOk(false)] of its timers refers to, and
    [ok] is the [useState(false)] flag. *)
Record CopyBtnState : Type := {
  inst : nat;
  ok : bool
}.

(** The state of a mounted [Card].  [open] is its [useState(false)] flag;
    the [CopyBtn] child is rendered under [open && (...)], so it is
    mounted exactly while the card is open. *)
Inductive CardState : Type :=
| Collapsed
| Expanded (b : CopyBtnState).

Definition open (c : CardState) : bool :=
  match c with
  | Collapsed => false
  | Expanded _ => true
  end.

(** The label of the copy button shows the acknowledgment when [ok]. *)
Definition acknowledged (c : CardState) : bool :=
  match c with
  | Collapsed => false
  | Expanded b => ok b
  end.

(** Errors that reach the host without a handler. *)
Inductive JsError : Type :=
| TypeError            (* a property read on [undefined] *)
| UnhandledRejection.  (* a rejected promise nobody listens to *)

(** The clipboard capability of the host at the moment of a click. *)
Inductive ClipboardHost : Type :=
| NoClipboard      (* [navigator.clipboard] is [undefined] *)
| WriteRejects     (* [writeText] returns a promise that rejects *)
| WriteResolves.   (* [writeText] returns a promise that resolves *)

Inductive Promise : Type := Fulfilled | Rejected.

(** How a statement list ends. *)
Inductive Completion (A : Type) : Type :=
| Normal (a : A)
| Throw (e : JsError).
Arguments Normal {A} a.
Arguments Throw {A} e.

Definition bind {A B} (c : Completion A) (k : A -> Completion B) : Completion B :=
  match c with
  | Normal a => k a
  | Throw e => Throw e
  end.

Notation "x <- c ;; k" := (bind c (fun x => k))
  (at level 100, c at next level, right associativity).

(** The call [navigator.clipboard.writeText(text)]. *)
Definition writeText (h : ClipboardHost) (text : string) : Completion Promise :=
  match h with
  | NoClipboard => Throw TypeError
  | WriteRejects => Normal Rejected
  | WriteResolves => Normal Fulfilled
  end.

(** The state of the page: the query of [App], the mounted cards by React
    key, the clock in milliseconds, the pending [setTimeout] callbacks
    (due time and the [CopyBtn] instance whose [setOk] they call), the next
    fresh instance name, the clipboard and the errors nobody handled. *)
Record AppState : Type := {
  app_q : string;
  app_cards : gmap string CardState;
  app_now : nat;
  app_timers : list (nat * nat);
  app_next : nat;
  app_clipboard : option string;
  app_uncaught : list JsError
}.

(** What the user and the clock do. *)
Inductive Event : Type :=
| SetQuery (q : string)                  (* [setQ(e.target.value)], [setQ("")] *)
| Toggle (key : string)                  (* click on the header of a card *)
| Copy (key : string) (h : ClipboardHost) (* click on the copy button *)
| Elapse (ms : nat).                     (* time passes *)

(** The effects of the [onClick] handler of [CopyBtn] after the clipboard
    call: [setOk(true); setTimeout(() => setOk(false), 1500)]. *)
Definition acknowledge (key : string) (b : CopyBtnState) (st : AppState) : AppState :=
  {| app_q := app_q st;
     app_cards := <[key := Expanded {| inst := inst b; ok := true |}]> (app_cards st);
     app_now := app_now st;
     app_timers := app_timers st ++ [(app_now st + 1500, inst b)];
     app_next := app_next st;
     app_clipboard := app_clipboard st;
     app_uncaught := app_uncaught st |}.

(** The [onClick] handler of [CopyBtn].  The promise is its value here
    only to tell what becomes of it: the source drops it. *)
Definition CopyBtn_onClick (h : ClipboardHost) (text key : string)
    (b : CopyBtnState) (st : AppState) : Completion (Promise * AppState) :=
  p <- writeText h text ;;
  Normal (p, acknowledge key b st).

Definition report (e : JsError) (st : AppState) : AppState :=
  {| app_q := app_q st;
     app_cards := app_cards st;
     app_now := app_now st;
     app_timers := app_timers st;
     app_next := app_next st;
     app_clipboard := app_clipboard st;
     app_uncaught := app_uncaught st ++ [e] |}.

Definition setClipboard (text : string) (st : AppState) : AppState :=
  {| app_q := app_q st;
     app_cards := app_cards st;
     app_now := app_now st;
     app_timers := app_timers st;
     app_next := app_next st;
     app_clipboard := Some text;
     app_uncaught := app_uncaught st |}.

(** A click on the copy button of a mounted, open card: the handler runs;
    an exception that leaves it, and a rejected promise without a handler,
    reach the host. *)
Definition copyClick (h : ClipboardHost) (text key : string)
    (b : CopyBtnState) (st : AppState) : AppState :=
  match CopyBtn_onClick h text key b st with
  | Throw e => report e st
  | Normal (Fulfilled, st') => setClipboard text st'
  | Normal (Rejected, st') => report UnhandledRejection st'
  end.

(** The timer callback [() => setOk(false)] of instance [i]: a call for an
    instance that is no longer mounted changes nothing. *)
Definition setOkFalse (i : nat) (c : CardState) : CardState :=
  match c with
  | Collapsed => Collapsed
  | Expanded b =>
      if decide (inst b = i) then Expanded {| inst := inst b; ok := false |} else c
  end.

Definition fire (m : gmap string CardState) (tm : nat * nat) : gmap string CardState :=
  setOkFalse (snd tm) <$> m.

Definition due (t : nat) (tm : nat * nat) : bool := (fst tm <=? t)%nat.

(** React's reconciliation of the keyed children [shown.map(...)]: a key
    that was mounted keeps its state, a new key mounts with
    [useState(false)], a key that is gone unmounts and loses its state. *)
Definition reconcile (old : gmap string CardState) (vis : list Topic)
    : gmap string CardState :=
  list_to_map ((fun s => (id s, default Collapsed (old !! id s))) <$> vis).

(** The text of the card with key [key], for its copy button. *)
Definition codeOf (key : string) : string :=
  match List.find (fun s => String.eqb (id s) key) SECTIONS with
  | Some s => code s
  | None => EmptyString
  end.

Arguments codeOf : simpl never.

(** The card with key [key] is on the page and shows the acknowledgment. *)
Definition ack (st : AppState) (key : string) : bool :=
  match app_cards st !! key with
  | Some c => acknowledged c
  | None => false
  end.

(** The card with key [key] is on the page and open. *)
Definition isOpen (st : AppState) (key : string) : bool :=
  match app_cards st !! key with
  | Some c => open c
  | None => false
  end.

Section Page.

Variable toLowerCase : string -> string.

(** The first render: [useState("")] in [App], every card freshly mounted. *)
Definition init : AppState :=
  {| app_q := EmptyString;
     app_cards := reconcile ∅ (shown toLowerCase EmptyString);
     app_now := 0;
     app_timers := [];
     app_next := 0;
     app_clipboard := None;
     app_uncaught := [] |}.

Definition step (st : AppState) (e : Event) : AppState :=
  match e with
  | SetQuery q =>
      {| app_q := q;
         app_cards := reconcile (app_cards st) (shown toLowerCase q);
         app_now := app_now st;
         app_timers := app_timers st;
         app_next := app_next st;
         app_clipboard := app_clipboard st;
         app_uncaught := app_uncaught st |}
  | Toggle key =>
      match app_cards st !! key with
      | None => st
      | Some c =>
          {| app_q := app_q st;
             app_cards :=
               <[key := if open c then Collapsed
                        else Expanded {| inst := app_next st; ok := false |}]>
                 (app_cards st);
             app_now := app_now st;
             app_timers := app_timers st;
             app_next := if open c then app_next st else S (app_next st);
             app_clipboard := app_clipboard st;
             app_uncaught := app_uncaught st |}
      end
  | Copy key h =>
      match app_cards st !! key with
      | Some (Expanded b) => copyClick h (codeOf key) key b st
      | _ => st
      end
  | Elapse ms =>
      let t := app_now st + ms in
      {| app_q := app_q st;
         app_cards := foldl fire (app_cards st) (List.filter (due t) (app_timers st));
         app_now := t;
         app_timers := List.filter (fun tm => negb (due t tm)) (app_timers st);
         app_next := app_next st;
         app_clipboard := app_clipboard st;
         app_uncaught := app_uncaught st |}
  end.

Definition run (st : AppState) (es : list Event) : AppState :=
  foldl step st es.

(** The card with key [key] is in the visible set of query [q]. *)
Definition visible (q key : string) : bool :=
  existsb (fun s => String.eqb (id s) key) (shown toLowerCase q).

End Page.

(** An event that does not act on the card with key [key]. *)
Definition unrelated (key : string) (e : Event) : Prop :=
  match e with
  | SetQuery _ => True
  | Toggle k => k <> key
  | Copy k _ => k <> key
  | Elapse _ => True
  end.

(** The time that passes during a list of events. *)
Fixpoint elapsed (es : list Event) : nat :=
  match es with
  | [] => 0
  | Elapse ms :: es' => ms + elapsed es'
  | _ :: es' => elapsed es'
  end.

(** ** The host's lowercase on plain text *)

Definition lowerByte (a : ascii) : ascii :=
  let n := nat_of_ascii a in
  if (65 <=? n)%nat && (n <=? 90)%nat then ascii_of_nat (n + 32) else a.

(** Lowercase of text whose letters are all ASCII: [A]-[Z] go to [a]-[z],
    every other byte stays. *)
Fixpoint asciiToLower (s : string) : string :=
  match s with
  | EmptyString => EmptyString
  | String a s' => String (lowerByte a) (asciiToLower s')
  end.

(** The characters outside ASCII that occur in [SECTIONS]; none of them is
    a letter, so none has a lowercase form of its own. *)
Definition uncasedSymbols : list string :=
  ["°"; "×"; "—"; "•"; "…"; "→"; "−"; "─"; "┐"; "┘"; "☀"; "✕"; "✗"; "️";
   "🌤"; "🔥"; "🥶"]%string.

Fixpoint dropPrefix (s t : string) {struct t} : option string :=
  match t with
  | EmptyString => Some s
  | String b t' =>
      match s with
      | EmptyString => None
      | String a s' => if Ascii.eqb a b then dropPrefix s' t' else None
      end
  end.

Fixpoint dropSymbol (syms : list string) (s : string) : option string :=
  match syms with
  | [] => None
  | y :: syms' =>
      match dropPrefix s y with
      | Some r => Some r
      | None => dropSymbol syms' s
      end
  end.

Fixpoint plainTextFuel (fuel : nat) (s : string) : bool :=
  match fuel with
  | 0 => false
  | S fuel' =>
      match s with
      | EmptyString => true
      | String a s' =>
          if (nat_of_ascii a <? 128)%nat then plainTextFuel fuel' s'
          else match dropSymbol uncasedSymbols s with
               | Some r => plainTextFuel fuel' r
               | None => false
               end
      end
  end.

(** [plainText s]: [s] is made of ASCII characters and of the symbols of
    [uncasedSymbols] only. *)
Definition plainText (s : string) : bool :=
  plainTextFuel (S (String.length s)) s.

(** The tab character and a run of two spaces, as typed into the search box. *)
Definition tab : string := String (ascii_of_nat 9) EmptyString.
Definition twoSpaces : string := "  "%string.

(** The whitespace of the search box: space, and tab to carriage return. *)
Definition isWhitespace (a : ascii) : bool :=
  let n := nat_of_ascii a in
  (n =? 32)%nat || ((9 <=? n)%nat && (n <=? 13)%nat).

Definition whitespaceOnly (s : string) : bool :=
  forallb isWhitespace (list_ascii_of_string s).

(** ** Invariants of the timed revert *)

(** All the timer callbacks of a list, applied to one card. *)
Definition fireAll (tms : list (nat * nat)) (c : CardState) : CardState :=
  foldl (fun c tm => setOkFalse (snd tm) c) c tms.


(** The card [key] shows the acknowledgment of instance [i], and no timer
    of that instance comes before [T]. *)
Definition ackHeld (key : string) (i T : nat) (st : AppState) : Prop :=
  app_cards st !! key = Some (Expanded {| inst := i; ok := true |}) /\
  (forall d, (d, i) ∈ app_timers st -> T <= d) /\
  T <= app_now st + 1500.

(** ** Example pages *)

(** The page after the first render and one click on the header of the
    card [key], on a host whose lowercase is [asciiToLower]. *)
Definition pageWithOpenCard (key : string) : AppState :=
  run asciiToLower (init asciiToLower) [Toggle key].

(** A topic with empty fields, the default of list accesses. *)
Definition noTopic : Topic :=
  {| id := EmptyString; color := EmptyString; label := EmptyString;
     desc := EmptyString; note := EmptyString; code := EmptyString |}.

(** ** Invariants of the page *)

(** The mounted cards are the cards of the visible set of the query. *)
Definition mountedVisible (toLowerCase : string -> string) (st : AppState) : Prop :=
  forall key, is_Some (app_cards st !! key) <-> visible toLowerCase (app_q st) key = true.

(** Instance names are given out once: the mounted buttons and the pending
    timers name instances below [app_next], and two cards never share a
    button instance. *)
Definition freshInstances (st : AppState) : Prop :=
  (forall key b, app_cards st !! key = Some (Expanded b) -> inst b < app_next st) /\
  (forall d i, (d, i) ∈ app_timers st -> i < app_next st) /\
  (forall k1 k2 b1 b2,
     app_cards st !! k1 = Some (Expanded b1) ->
     app_cards st !! k2 = Some (Expanded b2) ->
     inst b1 = inst b2 -> k1 = k2).

(** Every pending timer is due later than now and no later than [T], and
    a card that shows the acknowledgment has the revert of its button
    pending. *)
Definition revertsArmedBy (T : nat) (st : AppState) : Prop :=
  (forall d i, (d, i) ∈ app_timers st -> app_now st < d <= T) /\
  (forall key b, app_cards st !! key = Some (Expanded b) -> ok b = true ->
     exists d, (d, inst b) ∈ app_timers st).

(** No timer stays pending for more than 1500 ms. *)
Definition revertsArmed (st : AppState) : Prop :=
  revertsArmedBy (app_now st + 1500) st.

(** Events other than clicks on a copy button. *)
Definition noCopy (e : Event) : Prop :=
  match e with
  | Copy _ _ => False
  | _ => True
  end.

(** Events whose clipboard writes all succeed. *)
Definition copyResolves (e : Event) : Prop :=
  match e with
  | Copy _ h => h = WriteResolves
  | _ => True
  end.

(** * Properties *)

(** ** Substring search *)

Lemma append_nil (t : string) : EmptyString +:+ t = t.
Proof. reflexivity. Qed.

Lemma append_cons (a : ascii) (s t : string) :
  String a s +:+ t = String a (s +:+ t).
Proof. reflexivity. Qed.

Lemma startsWith_spec (s t : string) :
  startsWith s t = true <-> exists post, s = t +:+ post.
Proof.
  revert s. induction t as [|b t IH]; intros s; simpl.
  - split; [intros _; by exists s | done].
  - destruct s as [|a s].
    + split; [done | intros [post H]; discriminate].
    + setoid_rewrite append_cons.
      destruct (Ascii.eqb_spec a b) as [->|Hne].
      * rewrite IH. split; intros [post H]; exists post; congruence.
      * split; [done | intros [post H]; congruence].
Qed.

Lemma includes_spec (s t : string) :
  includes s t = true <-> Substring t s.
Proof.
  unfold Substring. induction s as [|a s IH]; simpl.
  - rewrite orb_false_r, startsWith_spec. split.
    + intros [post H]. by exists EmptyString, post.
    + intros [pre [post H]]. destruct pre; [by exists post|discriminate].
  - rewrite orb_true_iff, startsWith_spec, IH. split.
    + intros [[post H]|[pre [post H]]].
      * by exists EmptyString, post.
      * exists (String a pre), post. by rewrite append_cons, H.
    + intros [pre [post H]]. destruct pre as [|a' pre].
      * left. by exists post.
      * right. exists pre, post. rewrite append_cons in H. congruence.
Qed.

Lemma includes_empty (s : string) : includes s EmptyString = true.
Proof. by destruct s. Qed.

(** ** The catalog *)

Lemma SECTIONS_ids_NoDup : NoDup (id <$> SECTIONS).
Proof. apply (bool_decide_unpack _). by vm_compute. Qed.

Lemma SECTIONS_NoDup : NoDup SECTIONS.
Proof. eapply NoDup_fmap_1, SECTIONS_ids_NoDup. Qed.

Lemma SECTIONS_plain (s : Topic) :
  In s SECTIONS ->
  plainText (label s) = true /\ plainText (desc s) = true /\ plainText (code s) = true.
Proof.
  assert (forallb (fun s => plainText (label s) && plainText (desc s)
                            && plainText (code s)) SECTIONS = true) as H
    by (vm_compute; reflexivity).
  rewrite forallb_forall in H. intros Hs. specialize (H s Hs).
  apply andb_true_iff in H as [H Hc]. apply andb_true_iff in H as [Hl Hd]. done.
Qed.

(** ** [indexOf] *)

Lemma indexOf_range {A} `{EqDecision A} (l : list A) (x : A) :
  (-1 <= indexOf l x < Z.of_nat (length l))%Z.
Proof.
  induction l as [|y l IH]; simpl; [lia|].
  destruct (decide (y = x)); [lia|].
  destruct (Z.ltb_spec (indexOf l x) 0); lia.
Qed.


Lemma indexOf_absent {A} `{EqDecision A} (l : list A) (x : A) :
  x ∉ l -> indexOf l x = (-1)%Z.
Proof.
  induction l as [|y l IH]; intros Hx; simpl; [done|].
  rewrite decide_False by (intros ->; apply Hx; left).
  rewrite IH by (intros ?; apply Hx; by right). done.
Qed.

(** ** The filter *)

Section FilterFacts.

Variable toLowerCase : string -> string.

Lemma shown_In (q : string) (e : Topic) :
  In e (shown toLowerCase q) <->
  In e SECTIONS /\ matches toLowerCase (toLowerCase q) e = true.
Proof. unfold shown. apply filter_In. Qed.

Lemma filter_sublist {A} (f : A -> bool) (l : list A) :
  sublist (List.filter f l) l.
Proof.
  induction l as [|x l IH]; simpl; [constructor|].
  destruct (f x); by constructor.
Qed.

Lemma shown_sublist (q : string) : sublist (shown toLowerCase q) SECTIONS.
Proof. apply filter_sublist. Qed.

Lemma shown_NoDup (q : string) : NoDup (shown toLowerCase q).
Proof. eapply sublist_NoDup; [apply SECTIONS_NoDup | apply shown_sublist]. Qed.

Lemma shown_empty_query :
  toLowerCase EmptyString = EmptyString -> shown toLowerCase EmptyString = SECTIONS.
Proof.
  intros H. unfold shown. rewrite H.
  induction SECTIONS as [|x l IH]; simpl; [done|].
  unfold matches at 1. rewrite includes_empty. simpl. by rewrite IH.
Qed.

(** On plain text the host's lowercase is [asciiToLower]; then the filter
    of a plain query can be computed. *)
Lemma shown_plain (q : string) :
  (forall s, plainText s = true -> toLowerCase s = asciiToLower s) ->
  plainText q = true ->
  shown toLowerCase q = shown asciiToLower q.
Proof.
  intros Hlc Hq. unfold shown. rewrite (Hlc q Hq).
  apply filter_ext_in. intros s Hs.
  destruct (SECTIONS_plain s Hs) as (Hl & Hd & Hc).
  unfold matches. by rewrite (Hlc _ Hl), (Hlc _ Hd), (Hlc _ Hc).
Qed.

End FilterFacts.

Lemma lowerByte_idem (a : ascii) : lowerByte (lowerByte a) = lowerByte a.
Proof. by destruct a as [[] [] [] [] [] [] [] []]. Qed.

Lemma asciiToLower_idem (s : string) :
  asciiToLower (asciiToLower s) = asciiToLower s.
Proof. induction s as [|a s IH]; simpl; [done|]. by rewrite lowerByte_idem, IH. Qed.

(** ** Reconciliation *)

Lemma reconcile_lookup (old : gmap string CardState) (vis : list Topic) (k : string) :
  reconcile old vis !! k =
  if decide (k ∈ id <$> vis) then Some (default Collapsed (old !! k)) else None.
Proof.
  unfold reconcile. induction vis as [|s vis IH].
  - rewrite !fmap_nil, list_to_map_nil, lookup_empty.
    case_decide as H; [by apply elem_of_nil in H|done].
  - rewrite !fmap_cons, list_to_map_cons, lookup_insert, IH. simpl.
    destruct (decide (id s = k)) as [<-|Hne].
    + by rewrite decide_True by left.
    + destruct (decide (k ∈ id <$> vis)) as [Hin|Hin].
      * by rewrite decide_True by (by right).
      * rewrite decide_False; [done|].
        intros [->|?]%elem_of_cons; done.
Qed.

Section PageFacts.

Variable toLowerCase : string -> string.


Lemma visible_spec (q key : string) :
  visible toLowerCase q key = true <-> key ∈ id <$> shown toLowerCase q.
Proof.
  unfold visible. rewrite existsb_exists, list_elem_of_fmap.
  split.
  - intros (s & Hs & Heq). apply String.eqb_eq in Heq.
    exists s. split; [done|]. by apply list_elem_of_In.
  - intros (s & -> & Hs). exists s. split; [by apply list_elem_of_In|].
    apply String.eqb_refl.
Qed.

Lemma step_SetQuery_cards (st : AppState) (q : string) :
  app_cards (step toLowerCase st (SetQuery q)) =
  reconcile (app_cards st) (shown toLowerCase q).
Proof. reflexivity. Qed.

Lemma step_SetQuery_rest (st : AppState) (q : string) :
  app_timers (step toLowerCase st (SetQuery q)) = app_timers st /\
  app_now (step toLowerCase st (SetQuery q)) = app_now st /\
  app_uncaught (step toLowerCase st (SetQuery q)) = app_uncaught st /\
  app_clipboard (step toLowerCase st (SetQuery q)) = app_clipboard st.
Proof. done. Qed.

Lemma step_SetQuery_visible (st : AppState) (q key : string) :
  visible toLowerCase q key = true ->
  app_cards (step toLowerCase st (SetQuery q)) !! key =
  Some (default Collapsed (app_cards st !! key)).
Proof.
  intros Hv%visible_spec. rewrite step_SetQuery_cards, reconcile_lookup.
  by rewrite decide_True.
Qed.

Lemma step_SetQuery_hidden (st : AppState) (q key : string) :
  visible toLowerCase q key = false ->
  app_cards (step toLowerCase st (SetQuery q)) !! key = None.
Proof.
  intros Hv. rewrite step_SetQuery_cards, reconcile_lookup.
  rewrite decide_False; [done|]. intros Hin%visible_spec. congruence.
Qed.

Lemma step_Toggle_frame (st : AppState) (a b : string) :
  b <> a -> app_cards (step toLowerCase st (Toggle a)) !! b = app_cards st !! b.
Proof.
  intros Hne. simpl. destruct (app_cards st !! a); simpl; [|done].
  by rewrite lookup_insert_ne.
Qed.

Lemma step_Copy_frame (st : AppState) (a b : string) (h : ClipboardHost) :
  b <> a -> app_cards (step toLowerCase st (Copy a h)) !! b = app_cards st !! b.
Proof.
  intros Hne. simpl. destruct (app_cards st !! a) as [[|btn]|]; [done| |done].
  unfold copyClick, CopyBtn_onClick. destruct h; simpl; [done| |];
    by rewrite lookup_insert_ne.
Qed.

Lemma step_Copy_timers (st : AppState) (a : string) (h : ClipboardHost) :
  app_timers (step toLowerCase st (Copy a h)) = app_timers st \/
  exists b, app_cards st !! a = Some (Expanded b) /\
    app_timers (step toLowerCase st (Copy a h)) = app_timers st ++ [(app_now st + 1500, inst b)].
Proof.
  simpl. destruct (app_cards st !! a) as [[|btn]|]; [by left| |by left].
  unfold copyClick, CopyBtn_onClick. destruct h; simpl; [by left| |];
    right; by exists btn.
Qed.

Lemma step_Copy_now (st : AppState) (a : string) (h : ClipboardHost) :
  app_now (step toLowerCase st (Copy a h)) = app_now st.
Proof.
  simpl. destruct (app_cards st !! a) as [[|btn]|]; [done| |done].
  unfold copyClick, CopyBtn_onClick. by destruct h.
Qed.

Lemma step_Toggle_timers (st : AppState) (a : string) :
  app_timers (step toLowerCase st (Toggle a)) = app_timers st /\
  app_now (step toLowerCase st (Toggle a)) = app_now st.
Proof. simpl. by destruct (app_cards st !! a). Qed.

(** ** Timers *)

Lemma lookup_foldl_fire (m : gmap string CardState) (tms : list (nat * nat)) (k : string) :
  foldl fire m tms !! k = fireAll tms <$> (m !! k).
Proof.
  unfold fireAll. revert m. induction tms as [|tm tms IH]; intros m; simpl.
  - by destruct (m !! k).
  - rewrite IH. unfold fire at 1. rewrite lookup_fmap. by destruct (m !! k).
Qed.

Lemma setOkFalse_ack (i : nat) (c : CardState) :
  acknowledged (setOkFalse i c) = true ->
  acknowledged c = true /\ setOkFalse i c = c /\
  forall b, c = Expanded b -> inst b <> i.
Proof.
  destruct c as [|b]; simpl; [done|].
  destruct (decide (inst b = i)); simpl; [done|].
  intros H. split; [done|]. split; [done|]. intros b' [= <-]. done.
Qed.

Lemma fireAll_ack (tms : list (nat * nat)) (c : CardState) :
  acknowledged (fireAll tms c) = true ->
  acknowledged c = true /\ fireAll tms c = c /\
  forall b d, c = Expanded b -> (d, inst b) ∉ tms.
Proof.
  unfold fireAll. revert c. induction tms as [|tm tms IH]; intros c; simpl.
  - intros H. split; [done|]. split; [done|]. intros b d _. apply not_elem_of_nil.
  - intros H. destruct (IH _ H) as (H1 & H2 & H3).
    destruct (setOkFalse_ack _ _ H1) as (H4 & H5 & H6).
    rewrite H5 in H2, H3. rewrite H5. split; [done|]. split; [done|].
    intros b d Hb [Heq|Hin]%elem_of_cons.
    + apply (H6 b Hb). by rewrite <- Heq.
    + by apply (H3 b d Hb).
Qed.

Lemma fireAll_other (tms : list (nat * nat)) (b : CopyBtnState) :
  (forall d, (d, inst b) ∉ tms) -> fireAll tms (Expanded b) = Expanded b.
Proof.
  unfold fireAll. induction tms as [|[d i] tms IH]; intros H; simpl; [done|].
  rewrite decide_False.
  - apply IH. intros d' Hd'. apply (H d'). by right.
  - intros Heq. apply (H d). rewrite Heq. by left.
Qed.

Lemma run_now (st : AppState) (es : list Event) :
  app_now (run toLowerCase st es) = app_now st + elapsed es.
Proof.
  unfold run. revert st. induction es as [|e es IH]; intros st; simpl; [lia|].
  rewrite IH. destruct e as [q|k|k h|ms]; simpl elapsed.
  - done.
  - by destruct (step_Toggle_timers st k) as [_ ->].
  - by rewrite step_Copy_now.
  - simpl. lia.
Qed.

Lemma elem_of_filter_bool {A} (f : A -> bool) (l : list A) (x : A) :
  x ∈ List.filter f l <-> x ∈ l /\ f x = true.
Proof. rewrite !list_elem_of_In. apply filter_In. Qed.



(** An unrelated event that comes before [T] and keeps the card visible
    keeps its acknowledgment. *)
Lemma ackHeld_step (key : string) (i T : nat) (st : AppState) (e : Event) :
  unrelated key e ->
  (forall q, e = SetQuery q -> visible toLowerCase q key = true) ->
  app_now (step toLowerCase st e) < T ->
  ackHeld key i T st -> ackHeld key i T (step toLowerCase st e).
Proof.
  intros Hun Hvis Hlt (Hc & Htm & Hnow). destruct e as [q|k|k h|ms]; simpl in Hun.
  - unfold ackHeld. destruct (step_SetQuery_rest st q) as (-> & -> & _).
    split; [|done]. rewrite step_SetQuery_visible by by apply Hvis.
    by rewrite Hc.
  - unfold ackHeld. rewrite step_Toggle_frame by done.
    by destruct (step_Toggle_timers st k) as [-> ->].
  - unfold ackHeld. rewrite step_Copy_frame by done. rewrite step_Copy_now.
    repeat split; [done| |done].
    destruct (step_Copy_timers st k h) as [->|(b & _ & ->)]; [done|].
    intros d [Hd|Hd]%elem_of_app; [by apply Htm|].
    apply list_elem_of_singleton in Hd. injection Hd as -> _. done.
  - simpl in Hlt. unfold ackHeld. simpl. rewrite lookup_foldl_fire, Hc. simpl.
    repeat split.
    + f_equal. apply fireAll_other. simpl. intros d [Hd Hdue]%elem_of_filter_bool.
      unfold due in Hdue. simpl in Hdue. apply Nat.leb_le in Hdue.
      specialize (Htm d Hd). lia.
    + intros d [Hd _]%elem_of_filter_bool. by apply Htm.
    + lia.
Qed.


Lemma fireAll_collapsed (tms : list (nat * nat)) : fireAll tms Collapsed = Collapsed.
Proof. unfold fireAll. induction tms as [|tm tms IH]; [done|]. exact IH. Qed.




End PageFacts.

(** * The specified properties *)

Section Specified.

Variable toLowerCase : string -> string.

(** C1.  An entry is in the visible set of a query exactly when it is an
    entry of the catalog and the lowercase query is a substring of its
    lowercase label, description or code.  Entries that agree on these three
    fields match alike, whatever their note and id.  The filter is a total
    function: it returns a list for every query. *)
Theorem C1_filter_matches (q : string) (e : Topic) :
  (In e (shown toLowerCase q) <->
   In e SECTIONS /\
   (Substring (toLowerCase q) (toLowerCase (label e)) \/
    Substring (toLowerCase q) (toLowerCase (desc e)) \/
    Substring (toLowerCase q) (toLowerCase (code e)))) /\
  (forall e' : Topic,
     label e' = label e -> desc e' = desc e -> code e' = code e ->
     matches toLowerCase (toLowerCase q) e' = matches toLowerCase (toLowerCase q) e).
Proof.
  split.
  - rewrite shown_In. unfold matches.
    rewrite !orb_true_iff, !includes_spec. tauto.
  - intros e' Hl Hd Hc. unfold matches. by rewrite Hl, Hd, Hc.
Qed.

(** C2, as amended.  For the empty query the filter returns the full
    catalog, every entry of [SECTIONS] in its original order (the lowercase
    of the empty string is the empty string). *)
Theorem C2_empty_query_full_catalog :
  toLowerCase EmptyString = EmptyString ->
  shown toLowerCase EmptyString = SECTIONS /\
  List.length (shown toLowerCase EmptyString) = 23.
Proof.
  intros H. rewrite (shown_empty_query toLowerCase H). split; reflexivity.
Qed.

(** C3, as amended.  The state of a card lives in the mounted card: a
    query under which the card stays visible keeps its open flag, and a card
    that left the visible set comes back collapsed. *)
Theorem C3_expansion_lost_when_hidden (st : AppState) (q1 q2 key : string) :
  visible toLowerCase q1 key = false ->
  visible toLowerCase q2 key = true ->
  isOpen (run toLowerCase st [SetQuery q1; SetQuery q2]) key = false /\
  app_cards (run toLowerCase st [SetQuery q1; SetQuery q2]) !! key = Some Collapsed /\
  isOpen (step toLowerCase st (SetQuery q2)) key = isOpen st key.
Proof.
  intros H1 H2.
  assert (app_cards (run toLowerCase st [SetQuery q1; SetQuery q2]) !! key
          = Some Collapsed) as Hc.
  { unfold run. cbn [foldl]. rewrite (step_SetQuery_visible _ _ _ _ H2).
    by rewrite (step_SetQuery_hidden _ _ _ _ H1). }
  unfold isOpen. rewrite Hc. split; [done|]. split; [done|].
  rewrite (step_SetQuery_visible _ _ _ _ H2).
  by destruct (app_cards st !! key).
Qed.

(** C4, as amended.  A failing clipboard write is not handled.  Without a
    clipboard the handler throws a [TypeError] that nobody catches, before it
    shows anything: the cards, the timers and the clipboard stay as they
    were.  When the write is rejected the handler completes, shows the
    acknowledgment and arms the revert exactly as for a write that
    succeeds, and the rejection stays unhandled. *)
Theorem C4_copy_failure_unhandled (st : AppState) (key : string) (b : CopyBtnState) :
  app_cards st !! key = Some (Expanded b) ->
  (CopyBtn_onClick NoClipboard (codeOf key) key b st = Throw TypeError /\
   step toLowerCase st (Copy key NoClipboard) = report TypeError st) /\
  (CopyBtn_onClick WriteRejects (codeOf key) key b st
     = Normal (Rejected, acknowledge key b st) /\
   step toLowerCase st (Copy key WriteRejects)
     = report UnhandledRejection (acknowledge key b st)) /\
  app_uncaught (step toLowerCase st (Copy key NoClipboard))
    = app_uncaught st ++ [TypeError] /\
  app_uncaught (step toLowerCase st (Copy key WriteRejects))
    = app_uncaught st ++ [UnhandledRejection] /\
  ack (step toLowerCase st (Copy key WriteRejects)) key = true /\
  app_cards (step toLowerCase st (Copy key WriteRejects))
    = app_cards (step toLowerCase st (Copy key WriteResolves)) /\
  app_timers (step toLowerCase st (Copy key WriteRejects))
    = app_timers (step toLowerCase st (Copy key WriteResolves)).
Proof.
  intros Hc. cbn [step]. rewrite Hc. unfold copyClick, CopyBtn_onClick.
  cbn [writeText bind]. unfold ack. cbn [report setClipboard acknowledge app_cards app_uncaught app_timers].
  rewrite lookup_insert_eq. done.
Qed.

(** C5.  The visible set is a subsequence of the catalog in the catalog's
    order, without repetition, and holds catalog entries only. *)
Theorem C5_shown_subsequence (q : string) :
  sublist (shown toLowerCase q) SECTIONS /\
  NoDup (shown toLowerCase q) /\
  Forall (fun e => In e SECTIONS) (shown toLowerCase q).
Proof.
  split; [apply shown_sublist|]. split; [apply shown_NoDup|].
  apply Forall_forall. intros e He. apply list_elem_of_In in He.
  by apply shown_In in He as [He _].
Qed.

(** C6.  Filtering is case-insensitive: the visible set of a query is the
    visible set of its lowercase form, and [USESTATE] and [usestate] give
    the same visible set.  The host's lowercase is idempotent, and on plain
    text it is the lowercase of ASCII. *)
Theorem C6_case_insensitive :
  (forall s, toLowerCase (toLowerCase s) = toLowerCase s) ->
  (forall s, plainText s = true -> toLowerCase s = asciiToLower s) ->
  (forall q, shown toLowerCase (toLowerCase q) = shown toLowerCase q) /\
  shown toLowerCase "USESTATE" = shown toLowerCase "usestate".
Proof.
  intros Hidem Hplain. split.
  - intros q. unfold shown. by rewrite Hidem.
  - unfold shown. rewrite !Hplain by reflexivity. reflexivity.
Qed.

(** C7.  A click on the header of card [A] leaves the state of every other
    card [B] as it was, open flag and copy button included, so cards open
    and close independently; in the first render every card is collapsed. *)
Theorem C7_toggle_frame (st : AppState) (A B : string) :
  B <> A ->
  app_cards (step toLowerCase st (Toggle A)) !! B = app_cards st !! B /\
  isOpen (step toLowerCase st (Toggle A)) B = isOpen st B /\
  (isOpen st B = true ->
   is_Some (app_cards st !! A) ->
   isOpen st A = false ->
   isOpen (step toLowerCase st (Toggle A)) A = true /\
   isOpen (step toLowerCase st (Toggle A)) B = true) /\
  (forall key, isOpen (init toLowerCase) key = false).
Proof.
  intros Hne. pose proof (step_Toggle_frame toLowerCase st A B Hne) as Hf.
  split; [done|]. split; [unfold isOpen; by rewrite Hf|]. split.
  - intros HB [c Hc] HA. split; [|unfold isOpen in *; by rewrite Hf].
    unfold isOpen in *. cbn [step]. rewrite Hc in *. cbn [app_cards].
    rewrite lookup_insert_eq. by rewrite HA.
  - intros key. unfold isOpen, init. cbn [app_cards].
    rewrite reconcile_lookup, lookup_empty. by case_decide.
Qed.


(** C9.  On the catalog of the source: the query [useReducer] shows the
    [useReducer] entry and nothing else, so not [useState]; the query
    [usememo] shows [useCallback] and [useMemo] among its entries, and the
    code of [useCallback] mentions [useMemo].  The host's lowercase on
    plain text is the lowercase of ASCII. *)
Theorem C9_catalog_examples :
  (forall s, plainText s = true -> toLowerCase s = asciiToLower s) ->
  id <$> shown toLowerCase "useReducer" = ["useReducer"]%string /\
  visible toLowerCase "useReducer" "useReducer" = true /\
  visible toLowerCase "useReducer" "useState" = false /\
  id <$> shown toLowerCase "usememo"
    = ["useContext"; "useCallback"; "useMemo"; "perf"; "interview";
       "temp-converter"]%string /\
  visible toLowerCase "usememo" "useCallback" = true /\
  visible toLowerCase "usememo" "useMemo" = true /\
  (forall e, In e SECTIONS -> id e = "useCallback"%string ->
     includes (code e) "useMemo" = true /\
     includes (toLowerCase (label e)) (toLowerCase "usememo") = false /\
     includes (toLowerCase (desc e)) (toLowerCase "usememo") = false).
Proof.
  intros Hplain. unfold visible.
  rewrite (shown_plain toLowerCase "useReducer" Hplain) by (by vm_compute).
  rewrite (shown_plain toLowerCase "usememo" Hplain) by (by vm_compute).
  repeat (split; [by vm_compute|]).
  intros e He Hid. destruct (SECTIONS_plain e He) as (Hl & Hd & _).
  rewrite (Hplain _ Hl), (Hplain _ Hd), (Hplain "usememo"%string) by reflexivity.
  assert (forallb (fun e => negb (String.eqb (id e) "useCallback")
            || (includes (code e) "useMemo"
                && negb (includes (asciiToLower (label e)) (asciiToLower "usememo"))
                && negb (includes (asciiToLower (desc e)) (asciiToLower "usememo"))))
            SECTIONS = true) as H by (by vm_compute).
  rewrite forallb_forall in H. specialize (H e He).
  rewrite Hid, String.eqb_refl in H. cbn [negb orb] in H.
  apply andb_true_iff in H as [H H3]. apply andb_true_iff in H as [H1 H2].
  apply negb_true_iff in H2, H3. done.
Qed.


End Specified.

(** * Instances on the catalog *)

(** The lowercase of ASCII is its own restriction to plain text. *)
Lemma asciiToLower_plain (s : string) :
  plainText s = true -> asciiToLower s = asciiToLower s.
Proof. reflexivity. Qed.

Lemma C2_empty_query_witness :
  shown asciiToLower EmptyString = SECTIONS /\
  List.length (shown asciiToLower EmptyString) = 23.
Proof. apply (C2_empty_query_full_catalog asciiToLower). reflexivity. Defined.

(** Two spaces are a whitespace-only query, and the [interview] entry has
    no two spaces in a row; no entry holds a tab. *)
Lemma C2_whitespace_counterexample :
  whitespaceOnly twoSpaces = true /\
  visible asciiToLower twoSpaces "interview" = false /\
  List.length (shown asciiToLower twoSpaces) = 22 /\
  whitespaceOnly tab = true /\
  shown asciiToLower tab = [].
Proof. vm_compute. repeat split; reflexivity. Qed.

Lemma C3_expansion_witness :
  isOpen (run asciiToLower (pageWithOpenCard "useState")
            [SetQuery "usereducer"; SetQuery EmptyString]) "useState" = false /\
  app_cards (run asciiToLower (pageWithOpenCard "useState")
               [SetQuery "usereducer"; SetQuery EmptyString]) !! "useState"
    = Some Collapsed /\
  isOpen (step asciiToLower (pageWithOpenCard "useState") (SetQuery EmptyString))
    "useState" = isOpen (pageWithOpenCard "useState") "useState".
Proof.
  apply (C3_expansion_lost_when_hidden asciiToLower (pageWithOpenCard "useState")
           "usereducer" EmptyString "useState"); vm_compute; reflexivity.
Defined.

(** The card [useState] is opened, the query [usereducer] hides it, the
    empty query shows it again: it is collapsed. *)
Lemma C3_expansion_counterexample :
  isOpen (pageWithOpenCard "useState") "useState" = true /\
  visible asciiToLower "usereducer" "useState" = false /\
  visible asciiToLower EmptyString "useState" = true /\
  isOpen (run asciiToLower (pageWithOpenCard "useState")
            [SetQuery "usereducer"; SetQuery EmptyString]) "useState" = false.
Proof. vm_compute. repeat split; reflexivity. Qed.

Lemma C4_copy_failure_witness :
  app_uncaught (step asciiToLower (pageWithOpenCard "useEffect")
                  (Copy "useEffect" NoClipboard))
    = app_uncaught (pageWithOpenCard "useEffect") ++ [TypeError] /\
  app_uncaught (step asciiToLower (pageWithOpenCard "useEffect")
                  (Copy "useEffect" WriteRejects))
    = app_uncaught (pageWithOpenCard "useEffect") ++ [UnhandledRejection] /\
  ack (step asciiToLower (pageWithOpenCard "useEffect")
         (Copy "useEffect" WriteRejects)) "useEffect" = true.
Proof.
  destruct (C4_copy_failure_unhandled asciiToLower (pageWithOpenCard "useEffect")
              "useEffect" {| inst := 0; ok := false |})
    as (_ & _ & H1 & H2 & H3 & _); [vm_compute; reflexivity|].
  exact (conj H1 (conj H2 H3)).
Defined.

(** A click on the copy button of the open card [useEffect]: without a
    clipboard a [TypeError] leaves the handler, with a rejected write the
    rejection is unhandled. *)
Lemma C4_copy_failure_counterexample :
  CopyBtn_onClick NoClipboard (codeOf "useEffect") "useEffect"
    {| inst := 0; ok := false |} (pageWithOpenCard "useEffect") = Throw TypeError /\
  app_uncaught (pageWithOpenCard "useEffect") = [] /\
  app_uncaught (step asciiToLower (pageWithOpenCard "useEffect")
                  (Copy "useEffect" NoClipboard)) = [TypeError] /\
  app_uncaught (step asciiToLower (pageWithOpenCard "useEffect")
                  (Copy "useEffect" WriteRejects)) = [UnhandledRejection].
Proof. vm_compute. repeat split; reflexivity. Qed.

Lemma C6_case_insensitive_witness :
  (forall q, shown asciiToLower (asciiToLower q) = shown asciiToLower q) /\
  shown asciiToLower "USESTATE" = shown asciiToLower "usestate".
Proof.
  apply (C6_case_insensitive asciiToLower asciiToLower_idem asciiToLower_plain).
Defined.

Lemma C7_toggle_frame_witness :
  app_cards (step asciiToLower (pageWithOpenCard "useEffect") (Toggle "useState"))
    !! "useEffect" = app_cards (pageWithOpenCard "useEffect") !! "useEffect" /\
  isOpen (step asciiToLower (pageWithOpenCard "useEffect") (Toggle "useState"))
    "useState" = true /\
  isOpen (step asciiToLower (pageWithOpenCard "useEffect") (Toggle "useState"))
    "useEffect" = true.
Proof.
  destruct (C7_toggle_frame asciiToLower (pageWithOpenCard "useEffect")
              "useState" "useEffect") as (H1 & _ & H2 & _); [discriminate|].
  split; [exact H1|]. apply H2; [vm_compute; reflexivity| |vm_compute; reflexivity].
  exists Collapsed. vm_compute. reflexivity.
Defined.



Lemma C9_catalog_examples_witness :
  id <$> shown asciiToLower "useReducer" = ["useReducer"]%string /\
  visible asciiToLower "useReducer" "useState" = false /\
  visible asciiToLower "usememo" "useCallback" = true /\
  visible asciiToLower "usememo" "useMemo" = true.
Proof.
  destruct (C9_catalog_examples asciiToLower asciiToLower_plain)
    as (H1 & _ & H2 & _ & H3 & H4 & _).
  exact (conj H1 (conj H2 (conj H3 H4))).
Defined.


(** * Further properties of the filter and of the card list *)

Lemma append_assoc3 (a b c : string) : (a +:+ b) +:+ c = a +:+ (b +:+ c).
Proof. induction a as [|x a IH]; [done|]. by rewrite !append_cons, IH. Qed.

Lemma append_empty_r (a : string) : a +:+ EmptyString = a.
Proof. induction a as [|x a IH]; [done|]. by rewrite append_cons, IH. Qed.

Lemma Substring_refl (s : string) : Substring s s.
Proof. exists EmptyString, EmptyString. by rewrite append_nil, append_empty_r. Qed.

Lemma Substring_trans (a b c : string) :
  Substring a b -> Substring b c -> Substring a c.
Proof.
  intros (p1 & q1 & ->) (p2 & q2 & ->).
  exists (p2 +:+ p1), (q1 +:+ q2). by rewrite !append_assoc3.
Qed.

Lemma includes_refl (s : string) : includes s s = true.
Proof. apply includes_spec, Substring_refl. Qed.

Lemma includes_trans (s t u : string) :
  includes s t = true -> includes t u = true -> includes s u = true.
Proof.
  rewrite !includes_spec. intros H1 H2. by apply (Substring_trans u t s).
Qed.

Lemma filter_sublist_impl {A} (f g : A -> bool) (l : list A) :
  (forall x, f x = true -> g x = true) ->
  sublist (List.filter f l) (List.filter g l).
Proof.
  intros Hfg. induction l as [|x l IH]; simpl; [constructor|].
  destruct (f x) eqn:Hf.
  - rewrite (Hfg x Hf). by constructor.
  - destruct (g x); [by constructor|done].
Qed.

Lemma cardOf_card_s (l : list Topic) : card_s <$> List.map cardOf l = l.
Proof.
  induction l as [|x l IH]; [reflexivity|].
  cbn [List.map]. rewrite fmap_cons, IH. reflexivity.
Qed.

Lemma cardOf_card_key (l : list Topic) : card_key <$> List.map cardOf l = id <$> l.
Proof.
  induction l as [|x l IH]; [reflexivity|].
  cbn [List.map]. rewrite !fmap_cons, IH. reflexivity.
Qed.

Lemma cardOf_card_n (l : list Topic) :
  card_n <$> List.map cardOf l = (fun s => card_n (cardOf s)) <$> l.
Proof.
  induction l as [|x l IH]; [reflexivity|].
  cbn [List.map]. rewrite !fmap_cons, IH. reflexivity.
Qed.

Section FilterExtras.

Variable toLowerCase : string -> string.

Lemma shown_narrows (q1 q2 : string) :
  Substring (toLowerCase q1) (toLowerCase q2) ->
  sublist (shown toLowerCase q2) (shown toLowerCase q1).
Proof.
  intros Hsub%includes_spec.
  unfold shown. apply filter_sublist_impl. intros s. unfold matches.
  rewrite !orb_true_iff.
  intros [[H|H]|H]; [left; left|left; right|right];
    exact (includes_trans _ _ _ H Hsub).
Qed.

Lemma visible_narrows (q1 q2 key : string) :
  Substring (toLowerCase q1) (toLowerCase q2) ->
  visible toLowerCase q2 key = true -> visible toLowerCase q1 key = true.
Proof.
  intros Hsub. rewrite !visible_spec. intros Hk.
  eapply sublist_subseteq; [|exact Hk].
  exact (fmap_sublist id _ _ (shown_narrows q1 q2 Hsub)).
Qed.

(** X1.  A longer query narrows the result: when the lowercase of [q1] is
    a substring of the lowercase of [q2], the visible set of [q2] is a
    subsequence of the visible set of [q1]. *)
Theorem X1_longer_query_narrows (q1 q2 : string) :
  Substring (toLowerCase q1) (toLowerCase q2) ->
  sublist (shown toLowerCase q2) (shown toLowerCase q1) /\
  (forall key, visible toLowerCase q2 key = true -> visible toLowerCase q1 key = true).
Proof.
  intros Hsub. split; [by apply shown_narrows|].
  intros key. by apply visible_narrows.
Qed.

(** X2.  A search for the exact label, description or code of a catalog
    entry shows that entry. *)
Theorem X2_exact_text_finds_entry (e : Topic) :
  In e SECTIONS ->
  In e (shown toLowerCase (label e)) /\
  In e (shown toLowerCase (desc e)) /\
  In e (shown toLowerCase (code e)).
Proof.
  intros He. rewrite !shown_In. unfold matches.
  rewrite !includes_refl, !orb_true_r. done.
Qed.

(** X3.  The list area shows the "No results" line exactly when no entry
    matches, with the query as it was typed; otherwise it shows one card
    per visible entry, in the order of the visible set, and never an empty
    list of cards. *)
Theorem X3_list_area (q : string) :
  (shown toLowerCase q = [] /\ listArea toLowerCase q = NoResults q) \/
  (shown toLowerCase q <> [] /\
   listArea toLowerCase q = Cards (cards toLowerCase q) /\
   cards toLowerCase q <> [] /\
   card_s <$> cards toLowerCase q = shown toLowerCase q).
Proof.
  unfold listArea, cards. generalize (shown toLowerCase q). intros [|s l].
  - by left.
  - right. split; [done|]. split; [done|]. split; [done|].
    apply cardOf_card_s.
Qed.

(** X4.  The React keys of the rendered cards are pairwise different, and
    the numbers on the cards are a subsequence of 1, 2, ..., 23: they grow
    along the list and stay between 1 and the size of the catalog. *)
Theorem X4_card_keys_and_numbers (q : string) :
  NoDup (card_key <$> cards toLowerCase q) /\
  sublist (card_n <$> cards toLowerCase q) (Z.of_nat <$> seq 1 23).
Proof.
  unfold cards.
  rewrite cardOf_card_key, cardOf_card_n. split.
  - eapply sublist_NoDup; [apply SECTIONS_ids_NoDup|].
    exact (fmap_sublist _ _ _ (shown_sublist toLowerCase q)).
  - assert (Z.of_nat <$> seq 1 23 = (fun s => card_n (cardOf s)) <$> SECTIONS) as ->
      by (vm_compute; reflexivity).
    exact (fmap_sublist _ _ _ (shown_sublist toLowerCase q)).
Qed.

End FilterExtras.

(** * Further properties of the page *)

Lemma fireAll_expanded (tms : list (nat * nat)) (b : CopyBtnState) :
  exists b', fireAll tms (Expanded b) = Expanded b' /\ inst b' = inst b /\
             (ok b' = true -> ok b = true).
Proof.
  unfold fireAll. revert b. induction tms as [|tm tms IH]; intros b.
  - by exists b.
  - cbn [foldl setOkFalse]. destruct (decide (inst b = tm.2)).
    + destruct (IH {| inst := inst b; ok := false |}) as (b' & H1 & H2 & H3).
      exists b'. split; [done|]. split; [done|]. intros H. by specialize (H3 H).
    + apply IH.
Qed.

Lemma fireAll_hit (tms : list (nat * nat)) (b : CopyBtnState) (d : nat) :
  (d, inst b) ∈ tms -> acknowledged (fireAll tms (Expanded b)) = false.
Proof.
  intros Hin. destruct (acknowledged (fireAll tms (Expanded b))) eqn:Hack; [|done].
  destruct (fireAll_ack _ _ Hack) as (_ & _ & H). by destruct (H b d eq_refl).
Qed.

Section PageExtras.

Variable toLowerCase : string -> string.

Lemma run_app (st : AppState) (es1 es2 : list Event) :
  run toLowerCase st (es1 ++ es2) = run toLowerCase (run toLowerCase st es1) es2.
Proof. unfold run. apply foldl_app. Qed.

Lemma run_invariant (P : AppState -> Prop) (Q : Event -> Prop)
    (st : AppState) (es : list Event) :
  (forall st e, Q e -> P st -> P (step toLowerCase st e)) ->
  Forall Q es -> P st -> P (run toLowerCase st es).
Proof.
  intros Hstep Hes. unfold run. revert st.
  induction Hes as [|e es He Hes IH]; intros st HP; [done|].
  cbn [foldl]. apply IH. by apply Hstep.
Qed.

Lemma Forall_any_event (es : list Event) : Forall (fun _ => True) es.
Proof. by apply Forall_forall. Qed.

Lemma init_cards (key : string) :
  app_cards (init toLowerCase) !! key =
  if visible toLowerCase EmptyString key then Some Collapsed else None.
Proof.
  unfold init. cbn [app_cards]. rewrite reconcile_lookup, lookup_empty.
  destruct (visible toLowerCase EmptyString key) eqn:Hv.
  - apply visible_spec in Hv. by rewrite decide_True.
  - rewrite decide_False; [done|]. intros H%visible_spec. congruence.
Qed.

Lemma step_SetQuery_lookup (st : AppState) (q key : string) :
  app_cards (step toLowerCase st (SetQuery q)) !! key =
  if visible toLowerCase q key then Some (default Collapsed (app_cards st !! key))
  else None.
Proof.
  destruct (visible toLowerCase q key) eqn:Hv.
  - by apply step_SetQuery_visible.
  - by apply step_SetQuery_hidden.
Qed.

Lemma step_SetQuery_expanded (st : AppState) (q key : string) (b : CopyBtnState) :
  app_cards (step toLowerCase st (SetQuery q)) !! key = Some (Expanded b) ->
  app_cards st !! key = Some (Expanded b).
Proof.
  rewrite step_SetQuery_lookup. destruct (visible toLowerCase q key); [|done].
  destruct (app_cards st !! key) as [c|]; [|done]. by intros [= ->].
Qed.

Lemma step_SetQuery_fields (st : AppState) (q : string) :
  app_q (step toLowerCase st (SetQuery q)) = q /\
  app_next (step toLowerCase st (SetQuery q)) = app_next st.
Proof. done. Qed.

Lemma step_Elapse_timers (st : AppState) (ms d i : nat) :
  (d, i) ∈ app_timers (step toLowerCase st (Elapse ms)) <->
  (d, i) ∈ app_timers st /\ app_now st + ms < d.
Proof.
  cbn [step app_timers]. rewrite elem_of_filter_bool. unfold due. cbn [fst].
  rewrite negb_true_iff, Nat.leb_gt. done.
Qed.

Lemma step_Elapse_lookup (st : AppState) (ms : nat) (key : string) :
  app_cards (step toLowerCase st (Elapse ms)) !! key =
  fireAll (List.filter (due (app_now st + ms)) (app_timers st)) <$> (app_cards st !! key).
Proof. cbn [step app_cards]. apply lookup_foldl_fire. Qed.

Lemma step_Toggle_is_Some (st : AppState) (k key : string) :
  (is_Some (app_cards (step toLowerCase st (Toggle k)) !! key) <->
   is_Some (app_cards st !! key)) /\
  app_q (step toLowerCase st (Toggle k)) = app_q st.
Proof.
  cbn [step]. destruct (app_cards st !! k) as [c|] eqn:Hk; [|done].
  cbn [app_cards app_q]. split; [|done].
  destruct (decide (k = key)) as [->|Hne].
  - rewrite lookup_insert_eq, Hk. split; intros _; by eexists.
  - by rewrite lookup_insert_ne.
Qed.

Lemma step_Copy_is_Some (st : AppState) (k key : string) (h : ClipboardHost) :
  (is_Some (app_cards (step toLowerCase st (Copy k h)) !! key) <->
   is_Some (app_cards st !! key)) /\
  app_q (step toLowerCase st (Copy k h)) = app_q st.
Proof.
  cbn [step]. destruct (app_cards st !! k) as [[|b]|] eqn:Hk; [done| |done].
  unfold copyClick, CopyBtn_onClick.
  destruct h; cbn [writeText bind report setClipboard acknowledge app_cards app_q];
    [done| |].
  all: split; [|done].
  all: destruct (decide (k = key)) as [->|Hne];
    [rewrite lookup_insert_eq, Hk; split; intros _; by eexists
    |by rewrite lookup_insert_ne].
Qed.

Lemma mountedVisible_step (st : AppState) (e : Event) :
  mountedVisible toLowerCase st -> mountedVisible toLowerCase (step toLowerCase st e).
Proof.
  intros Hinv key. destruct e as [q|k|k h|ms].
  - destruct (step_SetQuery_fields st q) as [-> _]. rewrite step_SetQuery_lookup.
    destruct (visible toLowerCase q key).
    + split; [done|]. intros _. by eexists.
    + split; [intros []|]; done.
  - destruct (step_Toggle_is_Some st k key) as [-> ->]. apply Hinv.
  - destruct (step_Copy_is_Some st k key h) as [-> ->]. apply Hinv.
  - rewrite step_Elapse_lookup, fmap_is_Some. apply Hinv.
Qed.

Lemma mountedVisible_init : mountedVisible toLowerCase (init toLowerCase).
Proof.
  intros key. rewrite init_cards.
  change (app_q (init toLowerCase)) with EmptyString.
  destruct (visible toLowerCase EmptyString key).
  - split; [done|]. intros _. by eexists.
  - split; [intros []|]; done.
Qed.

(** X5.  After any events from the first render, the mounted cards are
    exactly the cards of the entries that the current query shows. *)
Theorem X5_mounted_cards_are_visible (es : list Event) (key : string) :
  is_Some (app_cards (run toLowerCase (init toLowerCase) es) !! key) <->
  visible toLowerCase (app_q (run toLowerCase (init toLowerCase) es)) key = true.
Proof.
  assert (mountedVisible toLowerCase (run toLowerCase (init toLowerCase) es)) as H.
  { apply (run_invariant _ (fun _ => True)).
    - intros st e _. apply mountedVisible_step.
    - apply Forall_any_event.
    - apply mountedVisible_init. }
  exact (H key).
Qed.

Lemma codeOf_id (e : Topic) : In e SECTIONS -> codeOf (id e) = code e.
Proof.
  assert (forallb (fun e => String.eqb (codeOf (id e)) (code e)) SECTIONS = true) as H
    by (vm_compute; reflexivity).
  rewrite forallb_forall in H. intros He. by apply String.eqb_eq, H.
Qed.

(** X6.  A successful copy on an open card puts the code of that card's
    entry on the clipboard, as written in the catalog; a failing write
    leaves the clipboard as it was. *)
Theorem X6_copy_writes_code (st : AppState) (e : Topic) (b : CopyBtnState) :
  In e SECTIONS ->
  app_cards st !! id e = Some (Expanded b) ->
  app_clipboard (step toLowerCase st (Copy (id e) WriteResolves)) = Some (code e) /\
  app_clipboard (step toLowerCase st (Copy (id e) WriteRejects)) = app_clipboard st /\
  app_clipboard (step toLowerCase st (Copy (id e) NoClipboard)) = app_clipboard st.
Proof.
  intros He Hc. cbn [step]. rewrite Hc. unfold copyClick, CopyBtn_onClick.
  cbn [writeText bind report setClipboard acknowledge app_clipboard].
  by rewrite (codeOf_id e He).
Qed.

Lemma step_uncaught (st : AppState) (e : Event) :
  copyResolves e -> app_uncaught (step toLowerCase st e) = app_uncaught st.
Proof.
  destruct e as [q|k|k h|ms]; cbn [copyResolves]; intros Hr.
  - apply step_SetQuery_rest.
  - cbn [step]. by destruct (app_cards st !! k).
  - subst h. cbn [step]. by destruct (app_cards st !! k) as [[|b]|].
  - done.
Qed.

(** X7.  While every clipboard write succeeds, no event ever adds an
    unhandled error: after any such events from the first render the list
    of unhandled errors is empty. *)
Theorem X7_no_errors_when_writes_succeed (es : list Event) :
  Forall copyResolves es ->
  app_uncaught (run toLowerCase (init toLowerCase) es) = [].
Proof.
  intros Hes.
  apply (run_invariant (fun st => app_uncaught st = []) copyResolves); [|done|done].
  intros st e He Hst. by rewrite step_uncaught.
Qed.

(** X10.  Two clicks on the header of a mounted card bring its open flag
    back and leave every other card alone, but the copy button is a new one:
    the card does not show the acknowledgment, whatever it showed before. *)
Theorem X10_toggle_twice (st : AppState) (key : string) :
  is_Some (app_cards st !! key) ->
  isOpen (run toLowerCase st [Toggle key; Toggle key]) key = isOpen st key /\
  ack (run toLowerCase st [Toggle key; Toggle key]) key = false /\
  (forall k, k <> key ->
     app_cards (run toLowerCase st [Toggle key; Toggle key]) !! k = app_cards st !! k).
Proof.
  intros [c Hc]. unfold run. cbn [foldl]. split; [|split].
  - unfold isOpen. cbn [step]. rewrite Hc. cbn [app_cards].
    rewrite lookup_insert_eq. cbn [app_cards]. rewrite lookup_insert_eq.
    by destruct c.
  - unfold ack. cbn [step]. rewrite Hc. cbn [app_cards].
    rewrite lookup_insert_eq. cbn [app_cards]. rewrite lookup_insert_eq.
    by destruct c.
  - intros k Hk. by rewrite !step_Toggle_frame.
Qed.

Lemma AppState_eq (s1 s2 : AppState) :
  app_q s1 = app_q s2 -> app_cards s1 = app_cards s2 -> app_now s1 = app_now s2 ->
  app_timers s1 = app_timers s2 -> app_next s1 = app_next s2 ->
  app_clipboard s1 = app_clipboard s2 -> app_uncaught s1 = app_uncaught s2 ->
  s1 = s2.
Proof. destruct s1, s2. cbn. by intros -> -> -> -> -> -> ->. Qed.

(** X12.  Intermediate queries leave no trace as long as they keep
    visible every card that the final query shows: then typing [q1] and
    then [q2] gives the same page as typing [q2] at once.  In particular
    setting the same query twice changes nothing. *)
Theorem X12_set_query_compose (st : AppState) (q1 q2 : string) :
  (forall key, visible toLowerCase q2 key = true -> visible toLowerCase q1 key = true) ->
  run toLowerCase st [SetQuery q1; SetQuery q2] = step toLowerCase st (SetQuery q2) /\
  run toLowerCase st [SetQuery q2; SetQuery q2] = step toLowerCase st (SetQuery q2).
Proof.
  intros Hvis.
  assert (forall q, (forall key, visible toLowerCase q2 key = true ->
                                 visible toLowerCase q key = true) ->
            run toLowerCase st [SetQuery q; SetQuery q2]
            = step toLowerCase st (SetQuery q2)) as H.
  { intros q Hq. unfold run. cbn [foldl].
    destruct (step_SetQuery_rest toLowerCase st q) as (Ht1 & Hn1 & Hu1 & Hc1).
    destruct (step_SetQuery_rest toLowerCase st q2) as (Ht2 & Hn2 & Hu2 & Hc2).
    destruct (step_SetQuery_rest toLowerCase (step toLowerCase st (SetQuery q)) q2)
      as (Ht3 & Hn3 & Hu3 & Hc3).
    destruct (step_SetQuery_fields st q) as (_ & Hx1).
    destruct (step_SetQuery_fields st q2) as (Hq2 & Hx2).
    destruct (step_SetQuery_fields (step toLowerCase st (SetQuery q)) q2) as (Hq3 & Hx3).
    apply AppState_eq; try congruence.
    apply map_eq. intros key. rewrite !step_SetQuery_lookup.
    destruct (visible toLowerCase q2 key) eqn:Hv; [|reflexivity].
    rewrite (Hq key Hv). by destruct (app_cards st !! key). }
  split; apply H; [exact Hvis|]. intros key Hk. exact Hk.
Qed.

Lemma step_now_le (st : AppState) (e : Event) :
  app_now st <= app_now (step toLowerCase st e).
Proof.
  destruct e as [q|k|k h|ms].
  - by destruct (step_SetQuery_rest toLowerCase st q) as (_ & -> & _).
  - by destruct (step_Toggle_timers toLowerCase st k) as [_ ->].
  - by rewrite step_Copy_now.
  - cbn [step app_now]. lia.
Qed.

Lemma revertsArmedBy_mono (T T' : nat) (st : AppState) :
  T <= T' -> revertsArmedBy T st -> revertsArmedBy T' st.
Proof.
  intros Hle [H1 H2]. split; [|done].
  intros d i Hd. specialize (H1 d i Hd). lia.
Qed.

(** An event keeps the reverts armed by [T], when a copy click comes no
    later than 1500 ms before [T]. *)
Lemma revertsArmedBy_step (T : nat) (st : AppState) (e : Event) :
  (forall k h, e = Copy k h -> app_now st + 1500 <= T) ->
  revertsArmedBy T st -> revertsArmedBy T (step toLowerCase st e).
Proof.
  intros HT [H1 H2]. destruct e as [q|k|k h|ms].
  - destruct (step_SetQuery_rest toLowerCase st q) as (Ht & Hn & _).
    split.
    + rewrite Ht, Hn. exact H1.
    + intros key b Hb Hok. rewrite Ht.
      apply step_SetQuery_expanded in Hb. by apply (H2 key b).
  - destruct (step_Toggle_timers toLowerCase st k) as [Ht Hn]. split.
    + rewrite Ht, Hn. exact H1.
    + intros key b Hb Hok. rewrite Ht.
      destruct (decide (k = key)) as [->|Hne].
      * revert Hb. cbn [step]. destruct (app_cards st !! key) as [c|] eqn:Hc.
        -- cbn [app_cards]. rewrite lookup_insert_eq.
           destruct (open c); [done|]. intros [= <-]. done.
        -- rewrite Hc. done.
      * rewrite step_Toggle_frame in Hb by done. by apply (H2 key b).
  - specialize (HT k h eq_refl). split.
    + rewrite step_Copy_now. intros d i Hd.
      destruct (step_Copy_timers toLowerCase st k h) as [Ht|(b & _ & Ht)];
        rewrite Ht in Hd; [by apply (H1 d i)|].
      apply elem_of_app in Hd as [Hd|Hd]; [by apply (H1 d i)|].
      apply list_elem_of_singleton in Hd. injection Hd as -> ->. lia.
    + intros key b Hb Hok.
      destruct (decide (k = key)) as [->|Hne].
      * revert Hb. cbn [step]. destruct (app_cards st !! key) as [[|b0]|] eqn:Hc;
          [by rewrite Hc| |by rewrite Hc].
        unfold copyClick, CopyBtn_onClick.
        destruct h; cbn [writeText bind report setClipboard acknowledge app_cards app_timers].
        -- rewrite Hc. intros [= <-]. by apply (H2 key b0).
        -- rewrite lookup_insert_eq. intros [= <-]. eexists.
           apply elem_of_app. right. by left.
        -- rewrite lookup_insert_eq. intros [= <-]. eexists.
           apply elem_of_app. right. by left.
      * rewrite step_Copy_frame in Hb by done.
        destruct (H2 key b Hb Hok) as [d Hd]. exists d.
        destruct (step_Copy_timers toLowerCase st k h) as [->|(b' & _ & ->)]; [done|].
        apply elem_of_app. by left.
  - split.
    + intros d i [Hd Hlt]%step_Elapse_timers. cbn [step app_now].
      specialize (H1 d i Hd). lia.
    + intros key b Hb Hok. rewrite step_Elapse_lookup in Hb.
      destruct (app_cards st !! key) as [c|] eqn:Hc; [|done]. cbn in Hb.
      injection Hb as Hb.
      assert (acknowledged (fireAll (List.filter (due (app_now st + ms)) (app_timers st)) c)
              = true) as Hack by (by rewrite Hb).
      destruct (fireAll_ack _ _ Hack) as (Hc1 & Hc2 & Hc3).
      rewrite Hc2 in Hb. subst c.
      destruct (H2 key b Hc Hok) as [d Hd]. exists d.
      apply step_Elapse_timers. split; [done|].
      destruct (decide (app_now st + ms < d)) as [|Hge]; [done|]. exfalso.
      apply (Hc3 b d eq_refl). apply elem_of_filter_bool. split; [done|].
      unfold due. cbn [fst]. apply Nat.leb_le. lia.
Qed.

Lemma revertsArmed_init : revertsArmed (init toLowerCase).
Proof.
  split.
  - intros d i Hd. cbn [init app_timers] in Hd. by apply elem_of_nil in Hd.
  - intros key b Hb. rewrite init_cards in Hb.
    by destruct (visible toLowerCase EmptyString key).
Qed.

Lemma revertsArmed_run (es : list Event) :
  revertsArmed (run toLowerCase (init toLowerCase) es).
Proof.
  apply (run_invariant revertsArmed (fun _ => True)).
  - intros st e _ H. unfold revertsArmed in *.
    apply (revertsArmedBy_mono (app_now st + 1500)).
    + pose proof (step_now_le st e). lia.
    + apply revertsArmedBy_step; [|done]. intros k h _. lia.
  - apply Forall_any_event.
  - apply revertsArmed_init.
Qed.

Lemma noCopy_elapsed_run (T : nat) (st : AppState) (es : list Event) :
  Forall noCopy es -> revertsArmedBy T st ->
  revertsArmedBy T (run toLowerCase st es).
Proof.
  intros Hes Hst. apply (run_invariant (revertsArmedBy T) noCopy); [|done|done].
  intros st' e He. apply revertsArmedBy_step. intros k h ->. destruct He.
Qed.

(** X8.  Every acknowledgment is gone 1500 ms after the last copy click:
    after any events from the first render, followed by events without copy
    clicks during which at least 1500 ms pass, no card shows the
    acknowledgment and no timer is pending. *)
Theorem X8_quiet_period_clears_acks (es1 es2 : list Event) :
  Forall noCopy es2 ->
  1500 <= elapsed es2 ->
  (forall key, ack (run toLowerCase (init toLowerCase) (es1 ++ es2)) key = false) /\
  app_timers (run toLowerCase (init toLowerCase) (es1 ++ es2)) = [].
Proof.
  intros Hes Hel. rewrite run_app.
  pose proof (revertsArmed_run es1) as H1. unfold revertsArmed in H1.
  pose proof (noCopy_elapsed_run _ _ es2 Hes H1) as [Ht Hack].
  rewrite run_now in Ht.
  assert (app_timers (run toLowerCase (run toLowerCase (init toLowerCase) es1) es2) = [])
    as Hnil.
  { destruct (app_timers _) as [|[d i] l]; [done|].
    specialize (Ht d i (list_elem_of_here _ _)). lia. }
  split; [|done]. intros key. unfold ack.
  destruct (app_cards _ !! key) as [[|b]|] eqn:Hc; [done| |done].
  cbn [acknowledged]. destruct (ok b) eqn:Hok; [|done].
  destruct (Hack key b Hc Hok) as [d Hd]. rewrite Hnil in Hd.
  by apply elem_of_nil in Hd.
Qed.

(** X9.  A second copy on the same button while its acknowledgment is
    still shown does not restart the 1500 ms: the timer of the first click
    is never cancelled, so the acknowledgment of the second click goes away
    1500 ms after the first click, however recent the second one is. *)
Theorem X9_second_copy_reverts_early (st : AppState) (key : string)
    (b : CopyBtnState) (d1 d2 : nat) :
  app_cards st !! key = Some (Expanded b) ->
  d1 < 1500 ->
  1500 <= d1 + d2 ->
  ack (run toLowerCase st
         [Copy key WriteResolves; Elapse d1; Copy key WriteResolves]) key = true /\
  ack (run toLowerCase st
         [Copy key WriteResolves; Elapse d1; Copy key WriteResolves; Elapse d2]) key
    = false.
Proof.
  intros Hc Hd1 Hd2. unfold run. cbn [foldl].
  set (st1 := step toLowerCase st (Copy key WriteResolves)).
  assert (app_cards st1 !! key = Some (Expanded {| inst := inst b; ok := true |})
          /\ (app_now st + 1500, inst b) ∈ app_timers st1
          /\ app_now st1 = app_now st) as (Hc1 & Ht1 & Hn1).
  { unfold st1. cbn [step]. rewrite Hc. unfold copyClick, CopyBtn_onClick.
    cbn [writeText bind setClipboard acknowledge app_cards app_timers app_now].
    rewrite lookup_insert_eq. split; [done|]. split; [|done].
    apply elem_of_app. right. by left. }
  clearbody st1.
  set (st2 := step toLowerCase st1 (Elapse d1)).
  assert ((exists b2, app_cards st2 !! key = Some (Expanded b2) /\ inst b2 = inst b)
          /\ (app_now st + 1500, inst b) ∈ app_timers st2
          /\ app_now st2 = app_now st + d1) as ((b2 & Hc2 & Hi2) & Ht2 & Hn2).
  { unfold st2. rewrite step_Elapse_lookup, Hc1. cbn [fmap option_fmap option_map].
    destruct (fireAll_expanded (List.filter (due (app_now st1 + d1)) (app_timers st1))
                {| inst := inst b; ok := true |}) as (b2 & -> & Hi & _).
    split; [by exists b2|]. split.
    - apply step_Elapse_timers. split; [done|]. lia.
    - cbn [step app_now]. lia. }
  clearbody st2. clear Hc1 Ht1 Hn1 st1.
  set (st3 := step toLowerCase st2 (Copy key WriteResolves)).
  assert (app_cards st3 !! key = Some (Expanded {| inst := inst b; ok := true |})
          /\ (app_now st + 1500, inst b) ∈ app_timers st3
          /\ app_now st3 = app_now st + d1) as (Hc3 & Ht3 & Hn3).
  { unfold st3. cbn [step]. rewrite Hc2. unfold copyClick, CopyBtn_onClick.
    cbn [writeText bind setClipboard acknowledge app_cards app_timers app_now].
    rewrite lookup_insert_eq, Hi2. split; [done|]. split; [|done].
    apply elem_of_app. by left. }
  clearbody st3. split.
  - unfold ack. by rewrite Hc3.
  - unfold ack. rewrite step_Elapse_lookup, Hc3. cbn [fmap option_fmap option_map].
    apply (fireAll_hit _ {| inst := inst b; ok := true |} (app_now st + 1500)).
    apply elem_of_filter_bool. split; [done|]. unfold due. cbn [fst].
    apply Nat.leb_le. lia.
Qed.

Lemma step_next_le (st : AppState) (e : Event) :
  app_next st <= app_next (step toLowerCase st e).
Proof.
  destruct e as [q|k|k h|ms].
  - by destruct (step_SetQuery_fields st q) as [_ ->].
  - cbn [step]. destruct (app_cards st !! k) as [c|]; [|done].
    cbn [app_next]. destruct (open c); lia.
  - cbn [step]. destruct (app_cards st !! k) as [[|b]|]; [done| |done].
    unfold copyClick, CopyBtn_onClick. by destruct h.
  - done.
Qed.

(** Where an open card of the next state comes from: the same card was
    open before with the same button instance, or it was collapsed and the
    event is the click that opens it with the next fresh instance. *)
Lemma step_expanded_origin (st : AppState) (e : Event) (key : string) (b' : CopyBtnState) :
  app_cards (step toLowerCase st e) !! key = Some (Expanded b') ->
  (exists b, app_cards st !! key = Some (Expanded b) /\ inst b = inst b') \/
  (inst b' = app_next st /\ app_next (step toLowerCase st e) = S (app_next st)).
Proof.
  destruct e as [q|k|k h|ms].
  - intros H%step_SetQuery_expanded. left. by exists b'.
  - destruct (decide (k = key)) as [->|Hne].
    + cbn [step]. destruct (app_cards st !! key) as [c|] eqn:Hc.
      * cbn [app_cards app_next]. rewrite lookup_insert_eq.
        destruct c as [|b]; cbn [open]; [|done]. intros [= <-]. by right.
      * rewrite Hc. done.
    + rewrite step_Toggle_frame by done. intros H. left. by exists b'.
  - destruct (decide (k = key)) as [->|Hne].
    + cbn [step]. destruct (app_cards st !! key) as [[|b]|] eqn:Hc;
        [by rewrite Hc| |by rewrite Hc].
      unfold copyClick, CopyBtn_onClick.
      destruct h; cbn [writeText bind report setClipboard acknowledge app_cards].
      * rewrite Hc. intros [= <-]. left. by exists b.
      * rewrite lookup_insert_eq. intros [= <-]. left. by exists b.
      * rewrite lookup_insert_eq. intros [= <-]. left. by exists b.
    + rewrite step_Copy_frame by done. intros H. left. by exists b'.
  - rewrite step_Elapse_lookup.
    destruct (app_cards st !! key) as [[|b]|] eqn:Hc; cbn [fmap option_fmap option_map].
    + by rewrite fireAll_collapsed.
    + destruct (fireAll_expanded (List.filter (due (app_now st + ms)) (app_timers st)) b)
        as (b2 & -> & Hi & _).
      intros [= <-]. left. by exists b.
    + done.
Qed.

Lemma freshInstances_step (st : AppState) (e : Event) :
  freshInstances st -> freshInstances (step toLowerCase st e).
Proof.
  intros (H1 & H2 & H3). pose proof (step_next_le st e) as Hle.
  split; [|split].
  - intros key b' Hb. destruct (step_expanded_origin st e key b' Hb)
      as [(b & Hb0 & <-)|[-> ->]]; [|lia].
    specialize (H1 key b Hb0). lia.
  - intros d i Hd. destruct e as [q|k|k h|ms].
    + destruct (step_SetQuery_rest toLowerCase st q) as (Ht & _).
      rewrite Ht in Hd. specialize (H2 d i Hd). lia.
    + destruct (step_Toggle_timers toLowerCase st k) as [Ht _].
      rewrite Ht in Hd. specialize (H2 d i Hd). lia.
    + destruct (step_Copy_timers toLowerCase st k h) as [Ht|(b & Hb & Ht)];
        rewrite Ht in Hd.
      * specialize (H2 d i Hd). lia.
      * apply elem_of_app in Hd as [Hd|Hd]; [specialize (H2 d i Hd); lia|].
        apply list_elem_of_singleton in Hd. injection Hd as -> ->.
        specialize (H1 k b Hb). lia.
    + apply step_Elapse_timers in Hd as [Hd _]. specialize (H2 d i Hd). lia.
  - intros k1 k2 b1 b2 Hb1 Hb2 Heq.
    destruct (step_expanded_origin st e k1 b1 Hb1) as [(c1 & Hc1 & Hi1)|[Hi1 Hn1]];
    destruct (step_expanded_origin st e k2 b2 Hb2) as [(c2 & Hc2 & Hi2)|[Hi2 Hn2]].
    + apply (H3 k1 k2 c1 c2 Hc1 Hc2). congruence.
    + specialize (H1 k1 c1 Hc1). lia.
    + specialize (H1 k2 c2 Hc2). lia.
    + (* both cards were opened by this event: it is one click *)
      destruct e as [q|k|k h|ms].
      * destruct (step_SetQuery_fields st q) as [_ Hn]. lia.
      * destruct (decide (k1 = k2)) as [|Hne]; [done|]. exfalso.
        destruct (decide (k = k1)) as [Heq1|Hne1].
        -- subst k. rewrite step_Toggle_frame in Hb2 by done.
           specialize (H1 k2 b2 Hb2). lia.
        -- rewrite step_Toggle_frame in Hb1 by done.
           specialize (H1 k1 b1 Hb1). lia.
      * pose proof Hn1 as Hn. revert Hn. cbn [step].
        destruct (app_cards st !! k) as [[|b]|]; [lia| |lia].
        unfold copyClick, CopyBtn_onClick. destruct h; cbn; lia.
      * revert Hn1. cbn [step app_next]. lia.
Qed.

Lemma freshInstances_init : freshInstances (init toLowerCase).
Proof.
  split; [|split].
  - intros key b Hb. rewrite init_cards in Hb.
    by destruct (visible toLowerCase EmptyString key).
  - intros d i Hd. cbn [init app_timers] in Hd. by apply elem_of_nil in Hd.
  - intros k1 k2 b1 b2 Hb. rewrite init_cards in Hb.
    by destruct (visible toLowerCase EmptyString k1).
Qed.

Lemma freshInstances_run (es : list Event) :
  freshInstances (run toLowerCase (init toLowerCase) es).
Proof.
  apply (run_invariant freshInstances (fun _ => True)).
  - intros st e _. apply freshInstances_step.
  - apply Forall_any_event.
  - apply freshInstances_init.
Qed.

(** X11.  Button instances are never confused: after any events from the
    first render, every open card and every pending timer names an instance
    that was given out before, and two different open cards have different
    copy button instances. *)
Theorem X11_instances_are_fresh (es : list Event) :
  (forall key b,
     app_cards (run toLowerCase (init toLowerCase) es) !! key = Some (Expanded b) ->
     inst b < app_next (run toLowerCase (init toLowerCase) es)) /\
  (forall d i,
     (d, i) ∈ app_timers (run toLowerCase (init toLowerCase) es) ->
     i < app_next (run toLowerCase (init toLowerCase) es)) /\
  (forall k1 k2 b1 b2,
     app_cards (run toLowerCase (init toLowerCase) es) !! k1 = Some (Expanded b1) ->
     app_cards (run toLowerCase (init toLowerCase) es) !! k2 = Some (Expanded b2) ->
     inst b1 = inst b2 -> k1 = k2).
Proof. exact (freshInstances_run es). Qed.

(** X14.  A timer of a button that is gone never touches a button that is
    mounted later: in any state reached from the first render, whatever
    reverts are still pending, opening a collapsed card and copying shows
    the acknowledgment for the whole 1500 ms that follow. *)
Theorem X14_reopened_card_ignores_old_timers (es : list Event) (key : string) (d : nat) :
  app_cards (run toLowerCase (init toLowerCase) es) !! key = Some Collapsed ->
  d < 1500 ->
  ack (run toLowerCase (run toLowerCase (init toLowerCase) es)
         [Toggle key; Copy key WriteResolves; Elapse d]) key = true.
Proof.
  intros Hc Hd. destruct (freshInstances_run es) as (_ & Hfresh & _).
  set (st := run toLowerCase (init toLowerCase) es) in *. clearbody st.
  unfold run. cbn [foldl].
  set (st1 := step toLowerCase st (Toggle key)).
  assert (app_cards st1 !! key = Some (Expanded {| inst := app_next st; ok := false |})
          /\ app_timers st1 = app_timers st /\ app_now st1 = app_now st)
    as (Hc1 & Ht1 & Hn1).
  { unfold st1. cbn [step]. rewrite Hc. cbn [open app_cards app_timers app_now].
    by rewrite lookup_insert_eq. }
  clearbody st1.
  set (st2 := step toLowerCase st1 (Copy key WriteResolves)).
  assert (ackHeld key (app_next st) (app_now st + 1500) st2 /\ app_now st2 = app_now st)
    as (Hheld & Hn2).
  { unfold st2, ackHeld. cbn [step]. rewrite Hc1. unfold copyClick, CopyBtn_onClick.
    cbn [writeText bind setClipboard acknowledge app_cards app_timers app_now inst].
    rewrite lookup_insert_eq, Ht1, Hn1. split; [|done]. split; [done|].
    split; [|lia]. intros d' [Hd'|Hd']%elem_of_app.
    - specialize (Hfresh d' (app_next st) Hd'). lia.
    - apply list_elem_of_singleton in Hd'. injection Hd' as ->. lia. }
  clearbody st2.
  assert (ackHeld key (app_next st) (app_now st + 1500)
            (step toLowerCase st2 (Elapse d))) as (Hend & _).
  { apply ackHeld_step; [done|done| |done]. cbn [step app_now]. lia. }
  unfold ack. by rewrite Hend.
Qed.

Lemma fireAll_spec (tms : list (nat * nat)) (b : CopyBtnState) :
  fireAll tms (Expanded b) =
  if existsb (fun tm => snd tm =? inst b) tms
  then Expanded {| inst := inst b; ok := false |}
  else Expanded b.
Proof.
  unfold fireAll. revert b. induction tms as [|tm tms IH]; intros b; [done|].
  cbn [foldl setOkFalse existsb]. destruct (decide (inst b = tm.2)) as [Heq|Hne].
  - rewrite IH. cbn [inst]. rewrite <- Heq, Nat.eqb_refl. cbn [orb].
    by destruct (existsb _ tms).
  - rewrite IH. apply Nat.eqb_neq in Hne. rewrite Nat.eqb_sym in Hne.
    by rewrite Hne.
Qed.

Lemma existsb_filter_due (t : nat) (i : nat) (tms : list (nat * nat)) :
  existsb (fun tm => snd tm =? i) (List.filter (due t) tms) = true <->
  exists d, (d, i) ∈ tms /\ d <= t.
Proof.
  rewrite existsb_exists. split.
  - intros ([d j] & [Hin Hdue]%filter_In & Heq). cbn in Heq.
    apply Nat.eqb_eq in Heq as ->. exists d. split; [by apply list_elem_of_In|].
    unfold due in Hdue. by apply Nat.leb_le in Hdue.
  - intros (d & Hin & Hle). exists (d, i). split.
    + apply filter_In. split; [by apply list_elem_of_In|].
      unfold due. by apply Nat.leb_le.
    + apply Nat.eqb_refl.
Qed.

Lemma filter_not_due_twice (t a b : nat) (tms : list (nat * nat)) :
  List.filter (fun tm => negb (due (t + a + b) tm))
    (List.filter (fun tm => negb (due (t + a) tm)) tms)
  = List.filter (fun tm => negb (due (t + (a + b)) tm)) tms.
Proof.
  rewrite <- (Nat.add_assoc t a b).
  induction tms as [|[d i] tms IH]; [done|]. cbn [List.filter]. unfold due in *.
  cbn [fst] in *.
  destruct (d <=? t + a) eqn:E1; destruct (d <=? t + (a + b)) eqn:E2;
    cbn [negb List.filter fst]; rewrite ?E2; cbn [negb]; rewrite ?IH; try done.
  apply Nat.leb_le in E1. apply Nat.leb_gt in E2. lia.
Qed.

(** X13.  Time adds up: letting [a] ms pass and then [b] ms gives the same
    page as letting [a + b] ms pass at once. *)
Theorem X13_elapse_compose (st : AppState) (a b : nat) :
  run toLowerCase st [Elapse a; Elapse b] = step toLowerCase st (Elapse (a + b)).
Proof.
  unfold run. cbn [foldl]. apply AppState_eq; try reflexivity.
  - apply map_eq. intros key. rewrite !step_Elapse_lookup.
    cbn [step app_now app_timers].
    destruct (app_cards st !! key) as [[|btn]|];
      cbn [fmap option_fmap option_map]; [by rewrite !fireAll_collapsed| |done].
    f_equal. rewrite !(fireAll_spec _ btn).
    destruct (existsb _ (List.filter (due (app_now st + a)) (app_timers st))) eqn:H1.
    + rewrite fireAll_spec. cbn [inst].
      apply existsb_filter_due in H1 as (d & Hin & Hle).
      assert (existsb (fun tm => tm.2 =? inst btn)
                (List.filter (due (app_now st + (a + b))) (app_timers st)) = true) as ->.
      { apply existsb_filter_due. exists d. split; [done|lia]. }
      by destruct (existsb _ _).
    + rewrite fireAll_spec.
      destruct (existsb _ (List.filter (due (app_now st + a + b)) _)) eqn:H2.
      * apply existsb_filter_due in H2 as (d & [Hin Hnd]%elem_of_filter_bool & Hle).
        assert (existsb (fun tm => tm.2 =? inst btn)
                  (List.filter (due (app_now st + (a + b))) (app_timers st)) = true) as ->.
        { apply existsb_filter_due. exists d. split; [done|lia]. }
        done.
      * destruct (existsb _ (List.filter (due (app_now st + (a + b))) _)) eqn:H3; [|done].
        exfalso. apply existsb_filter_due in H3 as (d & Hin & Hle).
        destruct (Nat.leb_spec d (app_now st + a)) as [Hd|Hd].
        -- assert (existsb (fun tm => tm.2 =? inst btn)
                     (List.filter (due (app_now st + a)) (app_timers st)) = true) as H4.
           { apply existsb_filter_due. by exists d. }
           congruence.
        -- assert (existsb (fun tm => tm.2 =? inst btn)
                     (List.filter (due (app_now st + a + b))
                        (List.filter (fun tm => negb (due (app_now st + a) tm))
                           (app_timers st))) = true) as H4.
           { apply existsb_filter_due. exists d. split; [|lia].
             apply elem_of_filter_bool. split; [done|]. unfold due. cbn [fst].
             apply negb_true_iff, Nat.leb_gt. lia. }
           congruence.
  - cbn [step app_now]. lia.
  - cbn [step app_timers app_now]. apply filter_not_due_twice.
Qed.

End PageExtras.

(** * Instances of the further properties *)

Lemma X1_longer_query_witness :
  sublist (shown asciiToLower "useMemo") (shown asciiToLower "use") /\
  (forall key, visible asciiToLower "useMemo" key = true ->
               visible asciiToLower "use" key = true).
Proof.
  apply (X1_longer_query_narrows asciiToLower "use" "useMemo").
  apply includes_spec. vm_compute. reflexivity.
Defined.

Lemma X2_exact_text_witness :
  In (nth 2 SECTIONS noTopic) (shown asciiToLower (label (nth 2 SECTIONS noTopic))) /\
  In (nth 2 SECTIONS noTopic) (shown asciiToLower (desc (nth 2 SECTIONS noTopic))) /\
  In (nth 2 SECTIONS noTopic) (shown asciiToLower (code (nth 2 SECTIONS noTopic))).
Proof.
  apply (X2_exact_text_finds_entry asciiToLower (nth 2 SECTIONS noTopic)).
  apply nth_In. vm_compute. lia.
Defined.

Lemma X6_copy_writes_code_witness :
  app_clipboard (step asciiToLower (pageWithOpenCard "useEffect")
                   (Copy (id (nth 3 SECTIONS noTopic)) WriteResolves))
    = Some (code (nth 3 SECTIONS noTopic)) /\
  app_clipboard (step asciiToLower (pageWithOpenCard "useEffect")
                   (Copy (id (nth 3 SECTIONS noTopic)) WriteRejects))
    = app_clipboard (pageWithOpenCard "useEffect") /\
  app_clipboard (step asciiToLower (pageWithOpenCard "useEffect")
                   (Copy (id (nth 3 SECTIONS noTopic)) NoClipboard))
    = app_clipboard (pageWithOpenCard "useEffect").
Proof.
  apply (X6_copy_writes_code asciiToLower (pageWithOpenCard "useEffect")
           (nth 3 SECTIONS noTopic) {| inst := 0; ok := false |}).
  - apply nth_In. vm_compute. lia.
  - vm_compute. reflexivity.
Defined.

Lemma X7_no_errors_witness :
  app_uncaught (run asciiToLower (init asciiToLower)
                  [Toggle "useEffect"; Copy "useEffect" WriteResolves;
                   SetQuery "use"; Elapse 2000]) = [].
Proof.
  apply (X7_no_errors_when_writes_succeed asciiToLower).
  repeat constructor.
Defined.

Lemma X8_quiet_period_witness :
  (forall key,
     ack (run asciiToLower (init asciiToLower)
            ([Toggle "useEffect"; Copy "useEffect" WriteResolves]
             ++ [Toggle "useState"; Elapse 700; SetQuery "use"; Elapse 800])) key
     = false) /\
  app_timers (run asciiToLower (init asciiToLower)
                ([Toggle "useEffect"; Copy "useEffect" WriteResolves]
                 ++ [Toggle "useState"; Elapse 700; SetQuery "use"; Elapse 800])) = [].
Proof.
  apply (X8_quiet_period_clears_acks asciiToLower).
  - repeat constructor.
  - cbn [elapsed]. lia.
Defined.

Lemma X9_second_copy_witness :
  ack (run asciiToLower (pageWithOpenCard "useEffect")
         [Copy "useEffect" WriteResolves; Elapse 1000; Copy "useEffect" WriteResolves])
    "useEffect" = true /\
  ack (run asciiToLower (pageWithOpenCard "useEffect")
         [Copy "useEffect" WriteResolves; Elapse 1000; Copy "useEffect" WriteResolves;
          Elapse 500])
    "useEffect" = false.
Proof.
  apply (X9_second_copy_reverts_early asciiToLower (pageWithOpenCard "useEffect")
           "useEffect" {| inst := 0; ok := false |} 1000 500).
  - vm_compute. reflexivity.
  - lia.
  - lia.
Defined.

Lemma X10_toggle_twice_witness :
  isOpen (run asciiToLower
            (step asciiToLower (pageWithOpenCard "useEffect")
               (Copy "useEffect" WriteResolves))
            [Toggle "useEffect"; Toggle "useEffect"]) "useEffect"
    = isOpen (step asciiToLower (pageWithOpenCard "useEffect")
                (Copy "useEffect" WriteResolves)) "useEffect" /\
  ack (run asciiToLower
         (step asciiToLower (pageWithOpenCard "useEffect")
            (Copy "useEffect" WriteResolves))
         [Toggle "useEffect"; Toggle "useEffect"]) "useEffect" = false.
Proof.
  destruct (X10_toggle_twice asciiToLower
              (step asciiToLower (pageWithOpenCard "useEffect")
                 (Copy "useEffect" WriteResolves)) "useEffect") as (H1 & H2 & _).
  - eexists. vm_compute. reflexivity.
  - exact (conj H1 H2).
Defined.

Lemma X12_set_query_witness :
  run asciiToLower (pageWithOpenCard "useMemo") [SetQuery "use"; SetQuery "useMemo"]
    = step asciiToLower (pageWithOpenCard "useMemo") (SetQuery "useMemo") /\
  run asciiToLower (pageWithOpenCard "useMemo") [SetQuery "useMemo"; SetQuery "useMemo"]
    = step asciiToLower (pageWithOpenCard "useMemo") (SetQuery "useMemo").
Proof.
  apply (X12_set_query_compose asciiToLower (pageWithOpenCard "useMemo") "use" "useMemo").
  intros key. apply (visible_narrows asciiToLower "use" "useMemo" key).
  apply includes_spec. vm_compute. reflexivity.
Defined.

Lemma X14_reopened_card_witness :
  ack (run asciiToLower
         (run asciiToLower (init asciiToLower)
            [Toggle "useEffect"; Copy "useEffect" WriteResolves; Elapse 1000;
             Toggle "useEffect"])
         [Toggle "useEffect"; Copy "useEffect" WriteResolves; Elapse 1499])
    "useEffect" = true.
Proof.
  apply (X14_reopened_card_ignores_old_timers asciiToLower
           [Toggle "useEffect"; Copy "useEffect" WriteResolves; Elapse 1000;
            Toggle "useEffect"] "useEffect" 1499).
  - vm_compute. reflexivity.
  - lia.
Defined.
